(** * EventSocket: the wire format and the router of [src/eventsocket.py]

    A shallow embedding of the Python module [eventsocket]: the regular
    expression that splits an incoming frame, the router object
    ([EventSocketRouter]) and the per-connection handler object
    ([EventSocketHandler]), followed by the properties of the wire codec,
    of listener registration and dispatch, and of the connection table.
    [EventSocketHandler.open] and the router's [__repr__], which it
    prints, come with the life of a connection further down; the
    handler's own [__repr__] formats [hash(self)] and is not embedded. *)

From Stdlib Require Import ZArith Ascii String List Lia.
From stdpp Require Import gmap strings list pretty.

Local Open Scope string_scope.
Local Open Scope list_scope.
Local Open Scope Z_scope.

(** ** Regular expressions, as Python's [re] runs them

    A backtracking matcher for the fragment of [re] that the module uses:
    single-character atoms, greedy [+] over an atom, concatenation and
    capturing groups.  [run r s] lists the ways [r] matches a prefix of [s]
    in the order in which the backtracking engine tries them, so its head
    is the match [re.match] reports. *)
Module Re.

(** [Dot] is [.] without [re.DOTALL]: any character but a newline. *)
Inductive atom : Type :=
| Dot
| OneOf (cs : list ascii).

Inductive regex : Type :=
| Atom (a : atom)
| Plus (a : atom)
| Cat (r1 r2 : regex)
| Group (r : regex).

Definition newline : ascii := "010"%char.

Definition accepts (a : atom) (c : ascii) : bool :=
  match a with
  | Dot => negb (Ascii.eqb c newline)
  | OneOf cs => existsb (Ascii.eqb c) cs
  end.

(** The inputs left after a greedy [a+], longest repetition first. *)
Fixpoint plus_rests (a : atom) (s : string) : list string :=
  match s with
  | EmptyString => []
  | String c t => if accepts a c then plus_rests a t ++ [t] else []
  end.

(** The text consumed between input [s] and its suffix [rest]. *)
Definition consumed (s rest : string) : string :=
  String.substring 0 (String.length s - String.length rest) s.

(** Each result is the input left and the texts of the groups closed,
    numbered by their opening parenthesis. *)
Fixpoint run (r : regex) (s : string) : list (string * list string) :=
  match r with
  | Atom a =>
      match s with
      | String c t => if accepts a c then [(t, [])] else []
      | EmptyString => []
      end
  | Plus a => List.map (fun t => (t, [])) (plus_rests a s)
  | Cat r1 r2 =>
      List.flat_map
        (fun '(s1, g1) => List.map (fun '(s2, g2) => (s2, g1 ++ g2)) (run r2 s1))
        (run r1 s)
  | Group r' => List.map (fun '(s', g) => (s', consumed s s' :: g)) (run r' s)
  end.

(** [re.match(r, s)]: anchored at the start of [s], not at its end;
    [None] when nothing matches, otherwise the groups of the first match. *)
Definition rmatch (r : regex) (s : string) : option (list string) :=
  match run r s with
  | [] => None
  | (_, groups) :: _ => Some groups
  end.

(** [m.group(i)] for [i >= 1]. *)
Definition group (groups : list string) (i : nat) : option string :=
  nth_error groups (Nat.pred i).

End Re.

(** The pattern of [on_message]: [(.+)((?:[{\[]).+)].  The inner [(?:...)]
    does not capture. *)
Definition message_pattern : Re.regex :=
  Re.Cat (Re.Group (Re.Plus Re.Dot))
         (Re.Group (Re.Cat (Re.Atom (Re.OneOf ["{"%char; "["%char])) (Re.Plus Re.Dot))).

(** ** The fragment of Python's [json] module that the handler calls

    [json.dumps] with its default separators and [ensure_ascii], and
    [json.loads] as the scanner of [json.decoder] reads a text.  Texts are
    strings of code points below 256.  Floating point numbers and escapes
    [\uXXXX] of larger code points are not represented: the scanner answers
    [Unmodelled] on a text that needs one, apart from its answer
    [Invalid] for the texts [json.loads] rejects with [JSONDecodeError]. *)
Module Json.

#[local] Set Warnings "-register-all".

Inductive value : Type :=
| Null
| Bool (b : bool)
| Int (z : Z)
| Str (s : string)
| Arr (items : list value)
| Obj (members : list (string * value)).

Definition dquote : ascii := "034"%char.
Definition backslash : ascii := "092"%char.

(** *** Serialization *)

Definition hex_digit (n : N) : ascii :=
  match String.get (N.to_nat n) "0123456789abcdef" with
  | Some c => c
  | None => "0"%char
  end.

Definition escape_char (c : ascii) : string :=
  let n := N_of_ascii c in
  if Ascii.eqb c dquote then String backslash (String dquote "")
  else if Ascii.eqb c backslash then String backslash (String backslash "")
  else if (n =? 10)%N then String backslash "n"
  else if (n =? 13)%N then String backslash "r"
  else if (n =? 9)%N then String backslash "t"
  else if (n =? 8)%N then String backslash "b"
  else if (n =? 12)%N then String backslash "f"
  else if ((n <? 32) || (126 <? n))%N
       then String backslash
              (String "u" (String "0" (String "0"
                 (String (hex_digit (n / 16)) (String (hex_digit (n mod 16)) "")))))
  else String c "".

Fixpoint escape (s : string) : string :=
  match s with
  | EmptyString => ""
  | String c t => escape_char c +:+ escape t
  end.

Definition encode_str (s : string) : string :=
  String dquote (escape s +:+ String dquote "").

Fixpoint join (sep : string) (l : list string) : string :=
  match l with
  | [] => ""
  | [x] => x
  | x :: l' => x +:+ sep +:+ join sep l'
  end.

Fixpoint dumps (v : value) : string :=
  match v with
  | Null => "null"
  | Bool true => "true"
  | Bool false => "false"
  | Int z => pretty z
  | Str s => encode_str s
  | Arr items => "[" +:+ join ", " (List.map dumps items) +:+ "]"
  | Obj members =>
      "{" +:+ join ", " (List.map (fun kv => encode_str (fst kv) +:+ ": " +:+ dumps (snd kv))
                                  members) +:+ "}"
  end.

(** *** Scanning

    [Found a rest] is a value read with the text left after it;
    [Starved] is the scanner running out of its recursion budget, which
    [decode] never does (lemma [decode_not_starved]). *)
Inductive scan (A : Type) : Type :=
| Found (a : A) (rest : string)
| Invalid
| Unmodelled
| Starved.
Arguments Found {A} a rest.
Arguments Invalid {A}.
Arguments Unmodelled {A}.
Arguments Starved {A}.

Definition scan_map {A B : Type} (f : A -> B) (r : scan A) : scan B :=
  match r with
  | Found a rest => Found (f a) rest
  | Invalid => Invalid
  | Unmodelled => Unmodelled
  | Starved => Starved
  end.

(** The whitespace of [json.decoder]: space, tab, line feed, carriage
    return. *)
Definition is_ws (c : ascii) : bool :=
  let n := N_of_ascii c in
  ((n =? 32) || (n =? 9) || (n =? 10) || (n =? 13))%N.

Fixpoint skip_ws (s : string) : string :=
  match s with
  | String c t => if is_ws c then skip_ws t else s
  | EmptyString => s
  end.

Definition is_digit (c : ascii) : bool :=
  let n := N_of_ascii c in ((48 <=? n) && (n <=? 57))%N.

Definition hex_value (c : ascii) : option N :=
  let n := N_of_ascii c in
  if ((48 <=? n) && (n <=? 57))%N then Some (n - 48)%N
  else if ((97 <=? n) && (n <=? 102))%N then Some (n - 87)%N
  else if ((65 <=? n) && (n <=? 70))%N then Some (n - 55)%N
  else None.

(** The character a backslash escape stands for, [\u] apart. *)
Definition unescape (c : ascii) : option ascii :=
  if Ascii.eqb c dquote then Some dquote
  else if Ascii.eqb c backslash then Some backslash
  else if Ascii.eqb c "/" then Some "/"%char
  else if Ascii.eqb c "b" then Some "008"%char
  else if Ascii.eqb c "f" then Some "012"%char
  else if Ascii.eqb c "n" then Some "010"%char
  else if Ascii.eqb c "r" then Some "013"%char
  else if Ascii.eqb c "t" then Some "009"%char
  else None.

(** [scanstring], strict, from just after the opening quote. *)
Fixpoint scanstring (s : string) : scan string :=
  match s with
  | EmptyString => Invalid
  | String c t =>
      if Ascii.eqb c dquote then Found "" t
      else if Ascii.eqb c backslash then
        match t with
        | String e t' =>
            if Ascii.eqb e "u" then
              match t' with
              | String h1 (String h2 (String h3 (String h4 t''))) =>
                  match hex_value h1, hex_value h2, hex_value h3, hex_value h4 with
                  | Some a, Some b, Some c', Some d =>
                      let n := (((a * 16 + b) * 16 + c') * 16 + d)%N in
                      if (n <? 256)%N
                      then scan_map (String (ascii_of_N n)) (scanstring t'')
                      else Unmodelled
                  | _, _, _, _ => Invalid
                  end
              | _ => Invalid
              end
            else
              match unescape e with
              | Some ch => scan_map (String ch) (scanstring t')
              | None => Invalid
              end
        | EmptyString => Invalid
        end
      else if (N_of_ascii c <? 32)%N then Invalid
      else scan_map (String c) (scanstring t)
  end.

Fixpoint take_digits (s : string) : string * string :=
  match s with
  | String c t =>
      if is_digit c then let '(d, rest) := take_digits t in (String c d, rest)
      else ("", s)
  | EmptyString => ("", s)
  end.

Definition digits_value (d : string) : Z :=
  fold_left (fun acc c => acc * 10 + Z.of_N (N_of_ascii c - 48))
            (list_ascii_of_string d) 0.

Definition starts_with_digit (s : string) : bool :=
  match s with
  | String c _ => is_digit c
  | EmptyString => false
  end.

(** What follows the integer part makes the number a float: a fraction
    [\.\d+] or an exponent [[eE][-+]?\d+]. *)
Definition float_tail (s : string) : bool :=
  match s with
  | String c t =>
      if Ascii.eqb c "." then starts_with_digit t
      else if Ascii.eqb c "e" || Ascii.eqb c "E" then
        match t with
        | String sg t' =>
            if Ascii.eqb sg "+" || Ascii.eqb sg "-" then starts_with_digit t'
            else is_digit sg
        | EmptyString => false
        end
      else false
  | EmptyString => false
  end.

(** The integer part of a number, after its sign: a lone [0], or a
    nonzero digit and the digits that follow it. *)
Definition scan_natural (s : string) : scan Z :=
  match s with
  | String c t =>
      if Ascii.eqb c "0" then (if float_tail t then Unmodelled else Found 0 t)
      else if is_digit c then
        let '(d, rest) := take_digits s in
        if float_tail rest then Unmodelled else Found (digits_value d) rest
      else Invalid
  | EmptyString => Invalid
  end.

Fixpoint strip_prefix (p s : string) : option string :=
  match p, s with
  | EmptyString, _ => Some s
  | String a p', String b s' => if Ascii.eqb a b then strip_prefix p' s' else None
  | String _ _, EmptyString => None
  end.

(** The constants and numbers of [scan_once]. *)
Definition scan_scalar (s : string) : scan value :=
  match strip_prefix "null" s, strip_prefix "true" s, strip_prefix "false" s with
  | Some rest, _, _ => Found Null rest
  | _, Some rest, _ => Found (Bool true) rest
  | _, _, Some rest => Found (Bool false) rest
  | None, None, None =>
      if String.prefix "NaN" s || String.prefix "Infinity" s || String.prefix "-Infinity" s
      then Unmodelled
      else match strip_prefix "-" s with
           | Some t => scan_map (fun z => Int (- z)) (scan_natural t)
           | None => scan_map Int (scan_natural s)
           end
  end.

(** A Python dict keeps the position of a key that is set again. *)
Fixpoint dict_set (k : string) (v : value) (d : list (string * value))
  : list (string * value) :=
  match d with
  | [] => [(k, v)]
  | (k', v') :: d' =>
      if String.eqb k k' then (k, v) :: d' else (k', v') :: dict_set k v d'
  end.

(** [scan_once], with [JSONArray] and [JSONObject] entered just after the
    opening bracket; [array_items] and [object_members] are their loops. *)
Fixpoint scan_once (fuel : nat) (s : string) : scan value :=
  match fuel with
  | O => Starved
  | S n =>
      match s with
      | String c t =>
          if Ascii.eqb c dquote then scan_map Str (scanstring t)
          else if Ascii.eqb c "{" then
            match skip_ws t with
            | String c' t' =>
                if Ascii.eqb c' "}" then Found (Obj []) t'
                else if Ascii.eqb c' dquote then object_members n [] t'
                else Invalid
            | EmptyString => Invalid
            end
          else if Ascii.eqb c "[" then
            match skip_ws t with
            | String c' t' =>
                if Ascii.eqb c' "]" then Found (Arr []) t'
                else array_items n [] (String c' t')
            | EmptyString => Invalid
            end
          else scan_scalar s
      | EmptyString => Invalid
      end
  end
with array_items (fuel : nat) (acc : list value) (s : string) : scan value :=
  match fuel with
  | O => Starved
  | S n =>
      match scan_once n s with
      | Found v rest =>
          match skip_ws rest with
          | String c t =>
              if Ascii.eqb c "]" then Found (Arr (acc ++ [v])) t
              else if Ascii.eqb c "," then array_items n (acc ++ [v]) (skip_ws t)
              else Invalid
          | EmptyString => Invalid
          end
      | Invalid => Invalid
      | Unmodelled => Unmodelled
      | Starved => Starved
      end
  end
with object_members (fuel : nat) (acc : list (string * value)) (s : string)
  : scan value :=
  match fuel with
  | O => Starved
  | S n =>
      match scanstring s with
      | Found key rest =>
          match strip_prefix ":" (skip_ws rest) with
          | Some t =>
              match scan_once n (skip_ws t) with
              | Found v rest' =>
                  match skip_ws rest' with
                  | String c t' =>
                      if Ascii.eqb c "}" then Found (Obj (dict_set key v acc)) t'
                      else if Ascii.eqb c "," then
                        match skip_ws t' with
                        | String c'' t'' =>
                            if Ascii.eqb c'' dquote
                            then object_members n (dict_set key v acc) t''
                            else Invalid
                        | EmptyString => Invalid
                        end
                      else Invalid
                  | EmptyString => Invalid
                  end
              | Invalid => Invalid
              | Unmodelled => Unmodelled
              | Starved => Starved
              end
          | None => Invalid
          end
      | Invalid => Invalid
      | Unmodelled => Unmodelled
      | Starved => Starved
      end
  end.

(** [JSONDecoder.decode]: leading whitespace, one value, trailing
    whitespace, and nothing more ("Extra data" otherwise). *)
Definition decode (s : string) : scan value :=
  match scan_once (S (2 * String.length s)) (skip_ws s) with
  | Found v rest =>
      match skip_ws rest with
      | EmptyString => Found v ""
      | String _ _ => Invalid
      end
  | r => r
  end.

(** [json.loads]: [None] is [JSONDecodeError]. *)
Definition loads (s : string) : option value :=
  match decode s with
  | Found v _ => Some v
  | _ => None
  end.

End Json.

(** Python text literals are written below with an apostrophe standing for
    the double quote character; [py] puts the double quotes back. *)
Definition py (s : string) : string :=
  string_of_list_ascii
    (List.map (fun c => if Ascii.eqb c "'"%char then "034"%char else c)
              (list_ascii_of_string s)).

(** ** Exceptions

    The exception classes the module meets, with the one base class each
    has; [Derived] is a class defined by the application. *)
Inductive exn : Type :=
| Exception
| LookupError
| KeyError
| IndexError
| ValueError
| JSONDecodeError
| TypeError
| AttributeError
| Derived (name : string) (base : exn).

#[global] Instance exn_eq_dec : EqDecision exn.
Proof. solve_decision. Defined.

(** The class and its ancestors, nearest first. *)
Fixpoint mro (c : exn) : list exn :=
  c :: match c with
       | Exception => []
       | LookupError | ValueError | TypeError | AttributeError => [Exception]
       | KeyError | IndexError => [LookupError; Exception]
       | JSONDecodeError => [ValueError; Exception]
       | Derived _ base => mro base
       end.

(** [except cls:] catches the instances of [cls] and of its subclasses. *)
Definition isinstance (e cls : exn) : bool := bool_decide (cls ∈ mro e).

(** [a or b] on two class objects: a class is truthy, so the value is [a]. *)
Definition class_or (a b : exn) : exn := a.

(** ** Objects and state *)

(** The identity of an [EventSocketHandler] object, and of a function
    object. *)
Definition sock : Type := nat.
Definition callable : Type := nat.

(** The argument of [EventSocketRouter.on]: a [str], a callable, or any
    other object. *)
Inductive pyobj : Type :=
| PyStr (s : string)
| PyCallable (f : callable)
| PyOther.

(** A hook attribute holds the lambda [__init__] stores, which logs a
    warning, or a function assigned later. *)
Inductive hook : Type :=
| Lambda (warning : string)
| Fn (f : callable).

Inductive level : Type := DEBUG | INFO | WARNING.

Inductive logarg : Type :=
| ANone
| AInt (z : Z)
| AStr (s : string).

(** A call of [_logger]: the level, the format and its arguments. *)
Record log_record : Type := LogRecord {
  lvl : level;
  fmt : string;
  args : list logarg
}.

Module Router.
(** The attributes of an [EventSocketRouter]. *)
Record state : Type := Build {
  listeners : gmap string callable;
  sockets : list sock;
  _next_sid : Z;
  on_open : hook;
  on_close : hook
}.
End Router.

Module Handler.
(** The attributes [initialize] gives an [EventSocketHandler]; its
    [router] is the one router of the world. *)
Record state : Type := Build {
  id : option Z;
  url_param : option string;
  count : Z
}.
End Handler.

(** The router, the handler objects, the log and the frames handed to
    [write_message]. *)
Record World : Type := mkWorld {
  router : Router.state;
  handlers : gmap sock Handler.state;
  log : list log_record;
  sent : list (sock * string)
}.

(** ** Computations: state and exceptions *)

Inductive result (A : Type) : Type :=
| Ok (a : A)
| Raised (e : exn).
Arguments Ok {A} a.
Arguments Raised {A} e.

Definition M (A : Type) : Type := World -> result A * World.

Definition ret {A : Type} (a : A) : M A := fun w => (Ok a, w).

Definition bind {A B : Type} (m : M A) (k : A -> M B) : M B :=
  fun w => match m w with
           | (Ok a, w') => k a w'
           | (Raised e, w') => (Raised e, w')
           end.

Definition raise {A : Type} (e : exn) : M A := fun w => (Raised e, w).

Definition lift {A : Type} (r : result A) : M A := fun w => (r, w).

Definition get : M World := fun w => (Ok w, w).

Definition modify (f : World -> World) : M unit := fun w => (Ok tt, f w).

(** [try: body / except cls: handler]. *)
Definition try_except {A : Type} (body : M A) (cls : exn) (handler : M A) : M A :=
  fun w => match body w with
           | (Raised e, w') => if isinstance e cls then handler w' else (Raised e, w')
           | r => r
           end.

Declare Scope py_scope.
Delimit Scope py_scope with py.
Notation "x <- m ;; k" := (bind m (fun x => k))
  (at level 100, m at next level, right associativity) : py_scope.
Notation "m ;; k" := (bind m (fun _ => k))
  (at level 100, right associativity) : py_scope.
Local Open Scope py_scope.

Definition set_router (f : Router.state -> Router.state) : M unit :=
  modify (fun w => mkWorld (f (router w)) (handlers w) (log w) (sent w)).

Definition logger (l : level) (format : string) (a : list logarg) : M unit :=
  modify (fun w => mkWorld (router w) (handlers w)
                           (log w ++ [LogRecord l format a]) (sent w)).

(** [write_message] of the transport: the frame goes out on the socket. *)
Definition write_message (s : sock) (frame : string) : M unit :=
  modify (fun w => mkWorld (router w) (handlers w) (log w) (sent w ++ [(s, frame)])).

Definition initialize : Handler.state := Handler.Build None None 0.

Definition handler_of (w : World) (s : sock) : Handler.state :=
  default initialize (handlers w !! s).

Definition set_handler (s : sock) (f : Handler.state -> Handler.state) : M unit :=
  modify (fun w => mkWorld (router w) (<[s := f (handler_of w s)]> (handlers w))
                           (log w) (sent w)).

Definition id_arg (i : option Z) : logarg :=
  match i with
  | Some z => AInt z
  | None => ANone
  end.

(** ** What the module takes from its surroundings

    The behaviour of the application's functions when called, their
    [__name__], and the two entry points of [json]. *)
Class Runtime : Type := {
  call_listener : callable -> Json.value -> sock -> M unit;
  call_hook_fn : callable -> sock -> M unit;
  dunder_name : callable -> option string;
  json_loads : string -> option Json.value;
  json_dumps : Json.value -> string
}.

(** ** Python's list and dict operations *)

(** [l[i]]: a negative index counts from the end; [IndexError] out of
    range. *)
Definition list_getitem {A : Type} (l : list A) (i : Z) : result A :=
  let n := Z.of_nat (length l) in
  let j := if i <? 0 then n + i else i in
  if (j <? 0) || (n <=? j) then Raised IndexError
  else match l !! Z.to_nat j with
       | Some x => Ok x
       | None => Raised IndexError
       end.

(** [l.remove(x)]: the first occurrence goes; [ValueError] when there is
    none. *)
Fixpoint list_remove (x : sock) (l : list sock) : result (list sock) :=
  match l with
  | [] => Raised ValueError
  | y :: l' =>
      if decide (y = x) then Ok l'
      else match list_remove x l' with
           | Ok r => Ok (y :: r)
           | Raised e => Raised e
           end
  end.

(** [d[k]]: [KeyError] for a missing key. *)
Definition dict_getitem {V : Type} (d : gmap string V) (k : string) : result V :=
  match d !! k with
  | Some v => Ok v
  | None => Raised KeyError
  end.

(** ** [class EventSocketRouter] *)
Module EventSocketRouter.
Section Methods.
Context `{Runtime}.

Definition __init__ : Router.state :=
  Router.Build ∅ [] 0
    (Lambda "Socket open event undefined, not triggering it")
    (Lambda "Socket close event undefined, not triggering it").

Definition get_socket_by_id (id : Z) : M (option sock) :=
  try_except
    (w <- get ;;
     s <- lift (list_getitem (Router.sockets (router w)) id) ;;
     ret (Some s))
    IndexError
    (ret None).

Definition register_listener (event : string) (listener : callable) : M unit :=
  set_router (fun r =>
    Router.Build (<[event := listener]> (Router.listeners r)) (Router.sockets r)
                 (Router._next_sid r) (Router.on_open r) (Router.on_close r)).

Definition register_socket (socket : sock) : M Z :=
  set_router (fun r =>
    Router.Build (Router.listeners r) (Router.sockets r ++ [socket])
                 (Router._next_sid r) (Router.on_open r) (Router.on_close r)) ;;
  set_router (fun r =>
    Router.Build (Router.listeners r) (Router.sockets r)
                 (Router._next_sid r + 1) (Router.on_open r) (Router.on_close r)) ;;
  w <- get ;;
  ret (Router._next_sid (router w) - 1).

(** What [on] returns: the closure [decorator], which holds the event
    name, or the function it was given. *)
Inductive on_result : Type :=
| Decorator (event : string)
| Function (f : callable).

(** The closure [decorator] of [on], applied to [func]. *)
Definition decorator (arg : string) (func : callable) : M callable :=
  register_listener arg func ;;
  ret func.

Definition on (arg : pyobj) : M on_result :=
  match arg with
  | PyStr name => ret (Decorator name)
  | PyCallable f =>
      match dunder_name f with
      | Some name => register_listener name f ;; ret (Function f)
      | None => raise AttributeError
      end
  | PyOther => raise TypeError
  end.

Definition on_received_message (event : string) (data : Json.value) (socket : sock)
  : M unit :=
  try_except
    (w <- get ;;
     listener <- lift (dict_getitem (Router.listeners (router w)) event) ;;
     call_listener listener data socket)
    (class_or KeyError IndexError)
    (logger WARNING (py "No listener was found for event '%s'") [AStr event]).

(** Calling the hook attribute [on_open] or [on_close] on a socket. *)
Definition call_hook (h : hook) (s : sock) : M unit :=
  match h with
  | Lambda warning => logger WARNING warning []
  | Fn f => call_hook_fn f s
  end.

End Methods.
End EventSocketRouter.

(** ** [class EventSocketHandler] *)
Module EventSocketHandler.
Section Methods.
Context `{Runtime}.

Import EventSocketRouter.

Definition add_to_router (self : sock) : M unit :=
  i <- register_socket self ;;
  set_handler self (fun h => Handler.Build (Some i) (Handler.url_param h) (Handler.count h)) ;;
  logger INFO "registered socket #%s" [AInt i] ;;
  w <- get ;;
  call_hook (Router.on_open (router w)) self.

(** The first three statements of the [try] block of [on_message]: the
    event name and the decoded payload of a frame.  A failed [re.match]
    gives [None], whose [group] is an [AttributeError]. *)
Definition parse (message : string) : result (string * Json.value) :=
  match Re.rmatch message_pattern message with
  | None => Raised AttributeError
  | Some groups =>
      match Re.group groups 1, Re.group groups 2 with
      | Some event, Some encoded_data =>
          match json_loads encoded_data with
          | Some data => Ok (event, data)
          | None => Raised JSONDecodeError
          end
      | _, _ => Raised IndexError
      end
  end.

Definition on_message (self : sock) (message : string) : M unit :=
  w <- get ;;
  logger DEBUG "socket #%s recieved message #%s: %s"
         [id_arg (Handler.id (handler_of w self));
          AInt (Handler.count (handler_of w self)); AStr message] ;;
  try_except
    (p <- lift (parse message) ;;
     on_received_message (fst p) (snd p) self ;;
     w <- get ;;
     logger INFO (py "socket #%s triggered event '%s' by message #%s")
            [id_arg (Handler.id (handler_of w self));
             AInt (Handler.count (handler_of w self)); AStr (fst p)])
    JSONDecodeError
    (w <- get ;;
     logger WARNING "socket #%s dropped message #%s due to improper format: %s"
            [id_arg (Handler.id (handler_of w self));
             AInt (Handler.count (handler_of w self)); AStr message]) ;;
  set_handler self (fun h =>
    Handler.Build (Handler.id h) (Handler.url_param h) (Handler.count h + 1)).

Definition on_close (self : sock) : M unit :=
  w <- get ;;
  l <- lift (list_remove self (Router.sockets (router w))) ;;
  set_router (fun r =>
    Router.Build (Router.listeners r) l (Router._next_sid r)
                 (Router.on_open r) (Router.on_close r)) ;;
  w <- get ;;
  call_hook (Router.on_close (router w)) self ;;
  logger INFO "Disconnected" [].

Definition emit (self : sock) (event : string) (data : Json.value) : M unit :=
  let to_send := event +:+ json_dumps data in
  write_message self to_send.

End Methods.
End EventSocketHandler.

(** ** A small application, to run the module on concrete frames

    Four function objects: [echo] and [memes] send their payload back on
    the socket, [lookup] raises [KeyError], [index] raises [IndexError].
    Any other object has no [__name__] and cannot be called. *)
Module App.

Definition echo : callable := 0%nat.
Definition memes : callable := 1%nat.
Definition lookup : callable := 2%nat.
Definition index : callable := 3%nat.

Definition name_of (f : callable) : option string :=
  match f with
  | 0%nat => Some "echo"
  | 1%nat => Some "memes"
  | 2%nat => Some "lookup"
  | 3%nat => Some "index"
  | _ => None
  end.

Definition call (f : callable) (data : Json.value) (s : sock) : M unit :=
  match f with
  | 0%nat => write_message s ("echo" +:+ Json.dumps data)
  | 1%nat => write_message s ("memes" +:+ Json.dumps data)
  | 2%nat => raise KeyError
  | 3%nat => raise IndexError
  | _ => raise TypeError
  end.

#[export] Instance runtime : Runtime := {
  call_listener := call;
  call_hook_fn := fun _ _ => raise TypeError;
  dunder_name := name_of;
  json_loads := Json.loads;
  json_dumps := Json.dumps
}.

End App.

(** The world just after [EventSocketRouter()]: no handler yet, nothing
    logged, nothing sent. *)
Definition new_world : World :=
  mkWorld EventSocketRouter.__init__ ∅ [] [].

(** A run of registrations and removals, as the transport drives them:
    [register_socket] when a connection opens, [on_close] when it ends.
    The ids issued are collected in order. *)
Inductive op : Type :=
| Register (s : sock)
| Remove (s : sock).

Fixpoint run_ops `{Runtime} (ops : list op) (w : World) : list Z * World :=
  match ops with
  | [] => ([], w)
  | Register s :: ops' =>
      match EventSocketRouter.register_socket s w with
      | (Ok i, w') => let '(ids, w'') := run_ops ops' w' in (i :: ids, w'')
      | (Raised _, w') => run_ops ops' w'
      end
  | Remove s :: ops' => run_ops ops' (snd (EventSocketHandler.on_close s w))
  end.

(** The number of registrations in a run. *)
Fixpoint registrations (ops : list op) : nat :=
  match ops with
  | [] => 0%nat
  | Register _ :: ops' => S (registrations ops')
  | Remove _ :: ops' => registrations ops'
  end.

Import EventSocketRouter EventSocketHandler.

(** ** Vocabulary of the statements *)

(** The router still has the close hook that [__init__] gave it. *)
Definition lambda_close (w : World) : Prop :=
  exists warning, Router.on_close (router w) = Lambda warning.

(** Three connections open and get the ids 0, 1 and 2; then the first
    one closes. *)
Definition after_first_closed `{Runtime} : World :=
  snd ((add_to_router 20%nat ;; add_to_router 21%nat ;; add_to_router 22%nat ;;
        on_close 20%nat) new_world).

(** The world with [listener] stored under [event]. *)
Definition with_listener (event : string) (listener : callable) (w : World) : World :=
  mkWorld (Router.Build (<[event := listener]> (Router.listeners (router w)))
                        (Router.sockets (router w)) (Router._next_sid (router w))
                        (Router.on_open (router w)) (Router.on_close (router w)))
          (handlers w) (log w) (sent w).

(** The world with one more record in the log. *)
Definition logged (r : log_record) (w : World) : World :=
  mkWorld (router w) (handlers w) (log w ++ [r]) (sent w).

(** The record [on_received_message] logs for a missing listener. *)
Definition no_listener_warning (event : string) : log_record :=
  LogRecord WARNING (py "No listener was found for event '%s'") [AStr event].

(** The two character classes of [message_pattern]. *)
Definition is_dot (c : ascii) : bool := Re.accepts Re.Dot c.
Definition is_bracket (c : ascii) : bool :=
  Re.accepts (Re.OneOf ["{"%char; "["%char]) c.

(** The text up to the first newline. *)
Fixpoint first_line (s : string) : string :=
  match s with
  | String c t => if is_dot c then String c (first_line t) else ""
  | EmptyString => ""
  end.

(** The second group when it starts at [s]: a bracket and the rest of
    the line, which must not be empty. *)
Definition payload_at (s : string) : option string :=
  match s with
  | String b t =>
      if is_bracket b
      then match first_line t with
           | EmptyString => None
           | l => Some (String b l)
           end
      else None
  | EmptyString => None
  end.

(** The two groups of [message_pattern] on [s], found directly: the
    first group is extended as far as a second group can still start
    after it. *)
Fixpoint greedy_split (s : string) : option (string * string) :=
  match s with
  | String c t =>
      if is_dot c then
        match greedy_split t with
        | Some (g1, g2) => Some (String c g1, g2)
        | None =>
            match payload_at t with
            | Some g2 => Some (String c "", g2)
            | None => None
            end
        end
      else None
  | EmptyString => None
  end.

(** The first match of the second group at [s]. *)
Definition second_group : Re.regex :=
  Re.Group (Re.Cat (Re.Atom (Re.OneOf ["{"%char; "["%char])) (Re.Plus Re.Dot)).

(** The first match over the rests [l] left by the first group, whose
    text for the rest [t] is [k t]. *)
Definition first_match (l : list string) (k : string -> string) : option (list string) :=
  match List.flat_map
          (fun '(s1, g1) => List.map (fun '(s2, g2) => (s2, g1 ++ g2))
                                     (Re.run second_group s1))
          (List.map (fun t => (t, [k t])) l)
  with
  | [] => None
  | (_, groups) :: _ => Some groups
  end.

(** Some character of [s] is [{] or [[]. *)
Fixpoint contains_bracket (s : string) : bool :=
  match s with
  | String c t => is_bracket c || contains_bracket t
  | EmptyString => false
  end.

(** No character of [s] is a newline. *)
Fixpoint single_line (s : string) : bool :=
  match s with
  | String c t => is_dot c && single_line t
  | EmptyString => true
  end.

(** The records [on_message] logs when a frame arrives and when it drops
    one. *)
Definition received_record (self : sock) (message : string) (w : World) : log_record :=
  LogRecord DEBUG "socket #%s recieved message #%s: %s"
            [id_arg (Handler.id (handler_of w self));
             AInt (Handler.count (handler_of w self)); AStr message].

Definition dropped_record (self : sock) (message : string) (w : World) : log_record :=
  LogRecord WARNING "socket #%s dropped message #%s due to improper format: %s"
            [id_arg (Handler.id (handler_of w self));
             AInt (Handler.count (handler_of w self)); AStr message].

(** The world with the message counter of [self] moved on by one. *)
Definition counted (self : sock) (w : World) : World :=
  mkWorld (router w)
          (<[self := Handler.Build (Handler.id (handler_of w self))
                                   (Handler.url_param (handler_of w self))
                                   (Handler.count (handler_of w self) + 1)]> (handlers w))
          (log w) (sent w).

(** A scan of [s] that did not run out of budget and, when it found a
    value, left less text than [s]. *)
Definition progresses (r : Json.scan Json.value) (s : string) : Prop :=
  r <> Json.Starved
  /\ forall v rest, r = Json.Found v rest -> (String.length rest < String.length s)%nat.

(** ** More vocabulary: runs of frames and of connections *)

(** The record [on_message] logs after a dispatch that returned. *)
Definition triggered_record (self : sock) (event : string) (w : World) : log_record :=
  LogRecord INFO (py "socket #%s triggered event '%s' by message #%s")
            [id_arg (Handler.id (handler_of w self));
             AInt (Handler.count (handler_of w self)); AStr event].

(** [on_message] for each frame of a list, in the order of arrival. *)
Fixpoint receive_all `{Runtime} (self : sock) (frames : list string) : M unit :=
  match frames with
  | [] => ret tt
  | frame :: frames' => on_message self frame ;; receive_all self frames'
  end.

(** [add_to_router] for each connection of a list, in order. *)
Fixpoint add_all `{Runtime} (connections : list sock) : M unit :=
  match connections with
  | [] => ret tt
  | s :: connections' => add_to_router s ;; add_all connections'
  end.

(** The router still has the open hook that [__init__] gave it. *)
Definition lambda_open (w : World) : Prop :=
  exists warning, Router.on_open (router w) = Lambda warning.

(** ** [EventSocketRouter.__repr__] and [EventSocketHandler.open]

    [open] prints the router before anything else.  The process is the
    world together with the lines written to the standard output and the
    value of [hash(router)], which [__repr__] formats. *)
Record Process : Type := mkProcess {
  world : World;
  router_hash : Z;
  stdout : list string
}.

Definition __repr__ (hash : Z) : string :=
  "EventSocketRouter(hash=" +:+ pretty hash +:+ ")".

Definition open `{Runtime} (self : sock) (url_param : string) (p : Process)
  : result unit * Process :=
  let out := stdout p ++ [__repr__ (router_hash p)] in
  let '(r, w) :=
    (logger INFO "new connection established with url_param: %s" [AStr url_param] ;;
     add_to_router self ;;
     set_handler self (fun h =>
       Handler.Build (Handler.id h) (Some url_param) (Handler.count h))) (world p) in
  (r, mkProcess w (router_hash p) out).

(** The world once [add_to_router] has registered [self], stored its id
    and logged it, before the open hook runs. *)
Definition registered (self : sock) (w : World) : World :=
  mkWorld (Router.Build (Router.listeners (router w)) (Router.sockets (router w) ++ [self])
                        (Router._next_sid (router w) + 1)
                        (Router.on_open (router w)) (Router.on_close (router w)))
          (<[self := Handler.Build (Some (Router._next_sid (router w)))
                                   (Handler.url_param (handler_of w self))
                                   (Handler.count (handler_of w self))]> (handlers w))
          (log w ++ [LogRecord INFO "registered socket #%s"
                               [AInt (Router._next_sid (router w))]])
          (sent w).

(** The world with the connection table replaced by [l]. *)
Definition with_sockets (l : list sock) (w : World) : World :=
  mkWorld (Router.Build (Router.listeners (router w)) l (Router._next_sid (router w))
                        (Router.on_open (router w)) (Router.on_close (router w)))
          (handlers w) (log w) (sent w).


(** A new router whose two hooks have been set to the function [f]. *)
Definition hooked_world (f : callable) (l : list sock) : World :=
  mkWorld (Router.Build ∅ l (Z.of_nat (length l)) (Fn f) (Fn f)) ∅ [] [].

(** * Properties *)

(** ** The JSON scanner has budget enough *)
Section JsonBudget.
Import Json.

Lemma skip_ws_length (s : string) :
  (String.length (skip_ws s) <= String.length s)%nat.
Proof.
  induction s as [|c t IH]; simpl; [lia|].
  destruct (is_ws c); simpl; lia.
Qed.

Lemma scan_map_found {A B : Type} (f : A -> B) (r : scan A) (b : B) (rest : string) :
  scan_map f r = Found b rest -> exists a, r = Found a rest.
Proof. destruct r; simpl; intros [=]; subst; eauto. Qed.

Lemma scan_map_starved {A B : Type} (f : A -> B) (r : scan A) :
  scan_map f r = Starved -> r = Starved.
Proof. destruct r; simpl; congruence. Qed.

(** [scanstring] does not use the budget, and what it leaves is shorter
    than what it was given. *)
Lemma scanstring_progress (s : string) :
  scanstring s <> Starved
  /\ forall a rest, scanstring s = Found a rest ->
                    (String.length rest < String.length s)%nat.
Proof.
  assert (Hn : forall n s, (String.length s < n)%nat ->
            scanstring s <> Starved
            /\ forall a rest, scanstring s = Found a rest ->
                              (String.length rest < String.length s)%nat).
  { clear s. induction n as [|n IH]; intros s Hlen; [lia|].
    destruct s as [|c t]; [split; [discriminate|intros ? ? [=]]|].
    cbn [scanstring String.length] in *.
    assert (Hrec : forall (f : string -> string) t0,
               (String.length t0 <= String.length t)%nat ->
               scan_map f (scanstring t0) <> Starved
               /\ forall a rest, scan_map f (scanstring t0) = Found a rest ->
                                 (String.length rest < S (String.length t))%nat).
    { intros f t0 Ht0. destruct (IH t0 ltac:(lia)) as [Hs Hf]. split.
      - intros Hm. apply scan_map_starved in Hm. contradiction.
      - intros a rest Hm. apply scan_map_found in Hm as [a' Ha'].
        specialize (Hf _ _ Ha'). lia. }
    destruct (Ascii.eqb c dquote).
    { split; [discriminate|]. intros a rest [= <- <-]. lia. }
    destruct (Ascii.eqb c backslash).
    - destruct t as [|e t']; [split; [discriminate|intros ? ? [=]]|].
      cbn [String.length] in *.
      destruct (Ascii.eqb e "u").
      + destruct t' as [|h1 [|h2 [|h3 [|h4 t'']]]];
          try (split; [discriminate|intros ? ? [=]]).
        destruct (hex_value h1), (hex_value h2), (hex_value h3), (hex_value h4);
          try (split; [discriminate|intros ? ? [=]]).
        destruct (_ <? 256)%N; [|split; [discriminate|intros ? ? [=]]].
        apply Hrec. cbn [String.length]. lia.
      + destruct (unescape e); [|split; [discriminate|intros ? ? [=]]].
        apply Hrec. cbn [String.length]. lia.
    - destruct (_ <? 32)%N; [split; [discriminate|intros ? ? [=]]|].
      apply Hrec. lia. }
  apply (Hn (S (String.length s))). lia.
Qed.

Lemma strip_prefix_length (p s rest : string) :
  strip_prefix p s = Some rest ->
  String.length s = (String.length p + String.length rest)%nat.
Proof.
  revert s. induction p as [|a p IH]; intros s; simpl.
  - destruct s; intros [= <-]; reflexivity.
  - destruct s as [|b s']; [discriminate|].
    destruct (Ascii.eqb a b); [|discriminate].
    intros Hs. simpl. now rewrite (IH _ Hs).
Qed.

Lemma take_digits_length (s : string) :
  String.length s
  = (String.length (fst (take_digits s)) + String.length (snd (take_digits s)))%nat.
Proof.
  induction s as [|c t IH]; simpl; [reflexivity|].
  destruct (is_digit c); [|reflexivity].
  destruct (take_digits t) as [d rest]. simpl in *. lia.
Qed.

Lemma scan_natural_progress (s : string) :
  scan_natural s <> Starved
  /\ forall z rest, scan_natural s = Found z rest ->
                    (String.length rest < String.length s)%nat.
Proof.
  destruct s as [|c t]; [split; [discriminate|intros ? ? [=]]|].
  unfold scan_natural.
  destruct (Ascii.eqb c "0").
  { destruct (float_tail t); [split; [discriminate|intros ? ? [=]]|].
    split; [discriminate|]. intros z rest [= <- <-]. simpl. lia. }
  destruct (is_digit c) eqn:Hc; [|split; [discriminate|intros ? ? [=]]].
  pose proof (take_digits_length (String c t)) as Hlen.
  destruct (take_digits (String c t)) as [d rest] eqn:Htd.
  assert (Hd : (0 < String.length d)%nat).
  { simpl in Htd. rewrite Hc in Htd. destruct (take_digits t).
    injection Htd as <- <-. simpl. lia. }
  simpl fst in Hlen. simpl snd in Hlen.
  destruct (float_tail rest); [split; [discriminate|intros ? ? [=]]|].
  split; [discriminate|]. intros z rest' [= <- <-]. lia.
Qed.

Lemma scan_scalar_progress (s : string) :
  scan_scalar s <> Starved
  /\ forall v rest, scan_scalar s = Found v rest ->
                    (String.length rest < String.length s)%nat.
Proof.
  unfold scan_scalar.
  destruct (strip_prefix "null" s) as [r|] eqn:Hnull.
  { apply strip_prefix_length in Hnull. split; [discriminate|].
    intros v rest [= <- <-]. simpl in Hnull. lia. }
  destruct (strip_prefix "true" s) as [r|] eqn:Htrue.
  { apply strip_prefix_length in Htrue. split; [discriminate|].
    intros v rest [= <- <-]. simpl in Htrue. lia. }
  destruct (strip_prefix "false" s) as [r|] eqn:Hfalse.
  { apply strip_prefix_length in Hfalse. split; [discriminate|].
    intros v rest [= <- <-]. simpl in Hfalse. lia. }
  destruct (_ || _); [split; [discriminate|intros ? ? [=]]|].
  destruct (strip_prefix "-" s) as [t|] eqn:Hminus.
  - apply strip_prefix_length in Hminus. simpl in Hminus.
    destruct (scan_natural_progress t) as [Hs Hf]. split.
    + intros Hm. apply scan_map_starved in Hm. contradiction.
    + intros v rest Hm. apply scan_map_found in Hm as [z Hz].
      specialize (Hf _ _ Hz). lia.
  - destruct (scan_natural_progress s) as [Hs Hf]. split.
    + intros Hm. apply scan_map_starved in Hm. contradiction.
    + intros v rest Hm. apply scan_map_found in Hm as [z Hz]. eauto.
Qed.


Lemma progresses_weaken (r : scan value) (s' s : string) :
  progresses r s' -> (String.length s' <= String.length s)%nat -> progresses r s.
Proof.
  intros [Hs Hf] Hle. split; [exact Hs|].
  intros v rest Hr. specialize (Hf _ _ Hr). lia.
Qed.

Ltac stuck := split; [discriminate | intros ? ? [=]].

Lemma scan_budget (n : nat) :
  (forall s, (2 * String.length s < n)%nat -> progresses (scan_once n s) s)
  /\ (forall acc s, (2 * String.length s + 1 < n)%nat ->
                    progresses (array_items n acc s) s)
  /\ (forall acc s, (2 * String.length s + 1 < n)%nat ->
                    progresses (object_members n acc s) s).
Proof.
  induction n as [|n (IHo & IHa & IHm)]; [repeat split; intros; lia|].
  split; [|split].
  - intros s Hn. cbn [scan_once]. destruct s as [|c t]; [stuck|].
    cbn [String.length] in Hn. pose proof (skip_ws_length t) as Hws.
    destruct (Ascii.eqb c dquote).
    { destruct (scanstring_progress t) as [Hs Hf]. split.
      - intros Hm. apply scan_map_starved in Hm. contradiction.
      - intros v rest Hm. apply scan_map_found in Hm as [a Ha].
        specialize (Hf _ _ Ha). simpl. lia. }
    destruct (Ascii.eqb c "{").
    { destruct (skip_ws t) as [|c' t']; [stuck|]. cbn [String.length] in Hws.
      destruct (Ascii.eqb c' "}").
      { split; [discriminate|]. intros v rest [= <- <-]. simpl. lia. }
      destruct (Ascii.eqb c' dquote); [|stuck].
      apply (progresses_weaken _ t'); [apply IHm; lia|simpl; lia]. }
    destruct (Ascii.eqb c "[").
    { destruct (skip_ws t) as [|c' t']; [stuck|]. cbn [String.length] in Hws.
      destruct (Ascii.eqb c' "]").
      { split; [discriminate|]. intros v rest [= <- <-]. simpl. lia. }
      apply (progresses_weaken _ (String c' t')); [apply IHa|]; simpl; lia. }
    apply scan_scalar_progress.
  - intros acc s Hn. cbn [array_items].
    destruct (IHo s ltac:(lia)) as [Hs Hf].
    destruct (scan_once n s) as [v rest| | |]; [|stuck|stuck|contradiction].
    specialize (Hf _ _ eq_refl). pose proof (skip_ws_length rest) as Hws.
    destruct (skip_ws rest) as [|c t]; [stuck|]. cbn [String.length] in Hws.
    destruct (Ascii.eqb c "]").
    { split; [discriminate|]. intros v' rest' [= <- <-]. lia. }
    destruct (Ascii.eqb c ","); [|stuck].
    pose proof (skip_ws_length t) as Hws'.
    apply (progresses_weaken _ (skip_ws t)); [apply IHa|]; lia.
  - intros acc s Hn. cbn [object_members].
    destruct (scanstring_progress s) as [Hs Hf].
    destruct (scanstring s) as [key rest| | |]; [|stuck|stuck|contradiction].
    specialize (Hf _ _ eq_refl). pose proof (skip_ws_length rest) as Hws.
    destruct (strip_prefix ":" (skip_ws rest)) as [t|] eqn:Hcolon; [|stuck].
    apply strip_prefix_length in Hcolon. cbn [String.length] in Hcolon.
    pose proof (skip_ws_length t) as Hws'.
    destruct (IHo (skip_ws t) ltac:(lia)) as [Hs' Hf'].
    destruct (scan_once n (skip_ws t)) as [v rest'| | |]; [|stuck|stuck|contradiction].
    specialize (Hf' _ _ eq_refl). pose proof (skip_ws_length rest') as Hws''.
    destruct (skip_ws rest') as [|c t']; [stuck|]. cbn [String.length] in Hws''.
    destruct (Ascii.eqb c "}").
    { split; [discriminate|]. intros v' r [= <- <-]. lia. }
    destruct (Ascii.eqb c ","); [|stuck].
    pose proof (skip_ws_length t') as Hws3.
    destruct (skip_ws t') as [|c'' t'']; [stuck|]. cbn [String.length] in Hws3.
    destruct (Ascii.eqb c'' dquote); [|stuck].
    apply (progresses_weaken _ t''); [apply IHm|]; lia.
Qed.

(** [decode] gives its scanner budget enough. *)
Lemma decode_not_starved (s : string) : decode s <> Starved.
Proof.
  unfold decode. pose proof (skip_ws_length s) as Hws.
  destruct (scan_budget (S (2 * String.length s))) as (Ho & _ & _).
  destruct (Ho (skip_ws s) ltac:(lia)) as [Hs _].
  destruct (scan_once _ (skip_ws s)) as [v rest| | |];
    [|discriminate|discriminate|contradiction].
  destruct (skip_ws rest); discriminate.
Qed.

End JsonBudget.

(** ** The connection table *)
Section ConnectionTable.
Context `{Runtime}.

Lemma list_remove_absent (x : sock) (l : list sock) :
  x ∉ l -> list_remove x l = Raised ValueError.
Proof.
  induction l as [|y l IH]; intros Hx; simpl; [reflexivity|].
  apply not_elem_of_cons in Hx as [Hne Hl].
  destruct (decide (y = x)) as [->|_]; [contradiction|].
  now rewrite IH.
Qed.

Lemma list_remove_present (x : sock) (l : list sock) :
  x ∈ l ->
  exists l1 l2, l = l1 ++ x :: l2 /\ (x ∉ l1) /\ list_remove x l = Ok (l1 ++ l2).
Proof.
  induction l as [|y l IH]; intros Hx; [by apply elem_of_nil in Hx|].
  simpl. destruct (decide (y = x)) as [->|Hne].
  - exists [], l. repeat split. apply not_elem_of_nil.
  - apply elem_of_cons in Hx as [->|Hl]; [contradiction|].
    destruct (IH Hl) as (l1 & l2 & -> & Hl1 & ->).
    exists (y :: l1), l2. repeat split.
    apply not_elem_of_cons. split; [congruence|assumption].
Qed.

(** C4, as the code has it: [on_close] on a connection that is not in
    [router.sockets] raises [ValueError] to its caller, from
    [sockets.remove(self)]; the close hook is not run, nothing is logged
    and the world is left as it was. *)
Theorem on_close_absent_raises (self : sock) (w : World) :
  self ∉ Router.sockets (router w) ->
  on_close self w = (Raised ValueError, w).
Proof.
  intros Habs. unfold on_close, bind, get, lift.
  now rewrite (list_remove_absent _ _ Habs).
Qed.

(** A connection that is registered is taken out of the table, at its
    first occurrence, before the hook runs. *)
Lemma on_close_present (self : sock) (w : World) :
  self ∈ Router.sockets (router w) ->
  exists l1 l2,
    Router.sockets (router w) = l1 ++ self :: l2 /\ (self ∉ l1) /\
    on_close self w =
      (call_hook (Router.on_close (router w)) self ;; logger INFO "Disconnected" [])
        (mkWorld (Router.Build (Router.listeners (router w)) (l1 ++ l2)
                               (Router._next_sid (router w))
                               (Router.on_open (router w)) (Router.on_close (router w)))
                 (handlers w) (log w) (sent w)).
Proof.
  intros Hin. destruct (list_remove_present _ _ Hin) as (l1 & l2 & Hl & Hl1 & Hrm).
  exists l1, l2. repeat split; [assumption..|].
  unfold on_close, bind at 1 2, get, lift. rewrite Hrm. reflexivity.
Qed.

(** *** Ids *)

Lemma register_socket_spec (socket : sock) (w : World) :
  register_socket socket w =
    (Ok (Router._next_sid (router w)),
     mkWorld (Router.Build (Router.listeners (router w))
                           (Router.sockets (router w) ++ [socket])
                           (Router._next_sid (router w) + 1)
                           (Router.on_open (router w)) (Router.on_close (router w)))
             (handlers w) (log w) (sent w)).
Proof.
  unfold register_socket, bind, set_router, modify, get, ret. simpl.
  do 2 f_equal. lia.
Qed.

Lemma on_close_keeps_counter (self : sock) (w : World) :
  lambda_close w ->
  Router._next_sid (router (snd (on_close self w))) = Router._next_sid (router w)
  /\ lambda_close (snd (on_close self w)).
Proof.
  intros [m Hm]. destruct (decide (self ∈ Router.sockets (router w))) as [Hin|Hout].
  - destruct (on_close_present _ _ Hin) as (l1 & l2 & _ & _ & ->).
    rewrite Hm. simpl. split; [reflexivity|]. exists m. reflexivity.
  - unfold on_close, bind, get, lift. rewrite (list_remove_absent _ _ Hout). simpl.
    split; [reflexivity|]. exists m. exact Hm.
Qed.

Lemma run_ops_ids (ops : list op) :
  forall w, lambda_close w ->
    fst (run_ops ops w) =
      List.map (fun k => Router._next_sid (router w) + Z.of_nat k)
               (seq 0 (registrations ops)).
Proof.
  induction ops as [|[s|s] ops IH]; intros w Hw; cbn [run_ops registrations].
  - reflexivity.
  - rewrite register_socket_spec.
    match goal with |- context [run_ops ops ?w'] =>
      specialize (IH w' Hw); destruct (run_ops ops w') as [ids w''] end.
    simpl in *. rewrite IH, Z.add_0_r. f_equal.
    rewrite <- seq_shift, List.map_map.
    apply List.map_ext. intros k. lia.
  - destruct (on_close_keeps_counter s w Hw) as [Hsid Hl].
    rewrite (IH _ Hl), Hsid. reflexivity.
Qed.

(** C5: from a new router, whatever the order of registrations and
    removals, the ids that [register_socket] returns are 0, 1, 2, ... in
    the order of the registrations: each is one more than the one before
    and a removal gives no id back. *)
Theorem ids_count_up_from_zero (ops : list op) :
  fst (run_ops ops new_world) = List.map Z.of_nat (seq 0 (registrations ops)).
Proof.
  rewrite run_ops_ids; [|eexists; reflexivity].
  apply List.map_ext. intros k. reflexivity.
Qed.

(** Three connections, the second closed, then a fourth: it gets 3. *)
Example ids_after_removal :
  fst (run_ops [Register 20; Register 21; Register 22; Remove 21; Register 23]%nat
               new_world) = [0; 1; 2; 3].
Proof. reflexivity. Qed.

(** *** Lookup by position *)

Lemma list_getitem_raises {A : Type} (l : list A) (i : Z) (e : exn) :
  list_getitem l i = Raised e -> e = IndexError.
Proof.
  unfold list_getitem. intros Hr.
  destruct (_ || _); [congruence|].
  destruct (l !! _); congruence.
Qed.

Lemma get_socket_by_id_spec (i : Z) (w : World) :
  get_socket_by_id i w =
    (Ok match list_getitem (Router.sockets (router w)) i with
        | Ok s => Some s
        | Raised _ => None
        end, w).
Proof.
  unfold get_socket_by_id, try_except, bind, get, lift, ret.
  destruct (list_getitem _ i) as [s|e] eqn:Hg; [reflexivity|].
  now rewrite (list_getitem_raises _ _ _ Hg).
Qed.

Lemma list_getitem_nonneg {A : Type} (l : list A) (i : Z) :
  0 <= i ->
  match list_getitem l i with Ok s => Some s | Raised _ => None end
  = l !! Z.to_nat i.
Proof.
  intros Hi. unfold list_getitem. cbv zeta.
  rewrite (proj2 (Z.ltb_ge i 0)) by lia. cbv iota.
  rewrite (proj2 (Z.ltb_ge i 0)) by lia. cbn [orb].
  destruct (Z.leb_spec (Z.of_nat (length l)) i) as [Hge|Hlt].
  - symmetry. apply lookup_ge_None_2. lia.
  - destruct (l !! Z.to_nat i); reflexivity.
Qed.

Lemma list_getitem_neg {A : Type} (l : list A) (i : Z) :
  i < 0 ->
  match list_getitem l i with Ok s => Some s | Raised _ => None end
  = reverse l !! Z.to_nat (- i - 1).
Proof.
  intros Hi. unfold list_getitem. cbv zeta.
  rewrite (proj2 (Z.ltb_lt i 0)) by lia. cbv iota.
  destruct (Z.ltb_spec (Z.of_nat (length l) + i) 0) as [Hlow|Hin]; cbn [orb].
  - symmetry. apply lookup_ge_None_2. rewrite length_reverse. lia.
  - rewrite (proj2 (Z.leb_gt _ _)) by lia.
    rewrite reverse_lookup by lia.
    replace (length l - S (Z.to_nat (- i - 1)))%nat
      with (Z.to_nat (Z.of_nat (length l) + i)) by lia.
    destruct (l !! _); reflexivity.
Qed.

(** C10: [get_socket_by_id] indexes the list [sockets] by position.  An
    id at or beyond the number of live sockets gives [None] and no
    exception; a negative id is read from the end of the list (id -1 is
    the last socket, and there is no socket, hence [None], further than
    the list goes); a non-negative id is the place in the list, whatever
    id the socket there was given.  After the first of three connections
    has closed, id 0 gives the socket that was issued id 1, and id 2
    gives [None] though the socket issued id 2 is still connected. *)
Theorem get_socket_by_id_is_positional (w : World) (i : Z) :
  (Z.of_nat (length (Router.sockets (router w))) <= i ->
     get_socket_by_id i w = (Ok None, w))
  /\ (i < 0 ->
     get_socket_by_id i w =
       (Ok (reverse (Router.sockets (router w)) !! Z.to_nat (- i - 1)), w))
  /\ (0 <= i ->
     get_socket_by_id i w = (Ok (Router.sockets (router w) !! Z.to_nat i), w))
  /\ (get_socket_by_id 0 after_first_closed = (Ok (Some 21%nat), after_first_closed)
      /\ Handler.id (handler_of after_first_closed 21%nat) = Some 1)
  /\ (get_socket_by_id 2 after_first_closed = (Ok None, after_first_closed)
      /\ Router.sockets (router after_first_closed) = [21; 22]%nat
      /\ Handler.id (handler_of after_first_closed 22%nat) = Some 2).
Proof.
  split; [|split; [|split; [|split]]].
  - intros Hi. rewrite get_socket_by_id_spec, list_getitem_nonneg by lia.
    f_equal. f_equal. apply lookup_ge_None_2. lia.
  - intros Hi. now rewrite get_socket_by_id_spec, list_getitem_neg.
  - intros Hi. now rewrite get_socket_by_id_spec, list_getitem_nonneg.
  - split; vm_compute; reflexivity.
  - split; [|split]; vm_compute; reflexivity.
Qed.

End ConnectionTable.

(** ** Listeners: registration and dispatch *)
Section Listeners.
Context `{Runtime}.

Lemma register_listener_spec (event : string) (listener : callable) (w : World) :
  register_listener event listener w = (Ok tt, with_listener event listener w).
Proof. reflexivity. Qed.

(** Dispatch when the event has a listener: the listener is called, and
    a [KeyError] coming out of it is taken for a missing listener. *)
Lemma on_received_message_registered
      (event : string) (listener : callable) (data : Json.value) (socket : sock)
      (w : World) :
  Router.listeners (router w) !! event = Some listener ->
  on_received_message event data socket w =
    match call_listener listener data socket w with
    | (Raised e, w') =>
        if isinstance e KeyError
        then (Ok tt, logged (no_listener_warning event) w')
        else (Raised e, w')
    | r => r
    end.
Proof.
  intros Hl. unfold on_received_message, try_except, bind, get, lift, dict_getitem.
  rewrite Hl. unfold class_or.
  destruct (call_listener listener data socket w) as [[[]|e] w']; reflexivity.
Qed.

(** C6: registering is an upsert that cannot fail.  After [h1] and then
    [h2] are registered for [x], the router is in the state it would be
    in had [h1] never been registered, [x] maps to [h2], and a dispatch
    of [x] calls [h2]; an event name has one listener at most. *)
Theorem register_listener_last_wins
        (x : string) (h1 h2 : callable) (data : Json.value) (socket : sock)
        (w : World) :
  let w1 := snd (register_listener x h1 w) in
  let w2 := snd (register_listener x h2 w1) in
  fst (register_listener x h1 w) = Ok tt
  /\ fst (register_listener x h2 w1) = Ok tt
  /\ w2 = snd (register_listener x h2 w)
  /\ Router.listeners (router w2) !! x = Some h2
  /\ on_received_message x data socket w2 =
       match call_listener h2 data socket w2 with
       | (Raised e, w') =>
           if isinstance e KeyError
           then (Ok tt, logged (no_listener_warning x) w')
           else (Raised e, w')
       | r => r
       end
  /\ (forall (event : string) (h h' : callable),
        Router.listeners (router w2) !! event = Some h ->
        Router.listeners (router w2) !! event = Some h' -> h = h').
Proof.
  cbn zeta. rewrite !register_listener_spec. cbn [fst snd].
  assert (Hw : with_listener x h2 (with_listener x h1 w) = with_listener x h2 w).
  { unfold with_listener. cbn. now rewrite insert_insert_eq. }
  assert (Hx : Router.listeners (router (with_listener x h2 (with_listener x h1 w))) !! x
               = Some h2).
  { cbn. apply lookup_insert_eq. }
  repeat split; try assumption.
  - now apply on_received_message_registered.
  - intros event h h' Hh Hh'. congruence.
Qed.

(** C7: for an event without a listener, dispatch returns normally; all
    it does is log the warning, and no function is called. *)
Theorem on_received_message_unregistered
        (event : string) (data : Json.value) (socket : sock) (w : World) :
  Router.listeners (router w) !! event = None ->
  on_received_message event data socket w = (Ok tt, logged (no_listener_warning event) w).
Proof.
  intros Hl. unfold on_received_message, try_except, bind, get, lift, dict_getitem.
  now rewrite Hl.
Qed.

(** C9: when the listener of a registered event raises, [KeyError] (the
    class or one derived from it, as [except] tests) is swallowed and
    logged as a missing listener, and an exception of any other class
    goes on to the caller of dispatch; [IndexError] is one of these, the
    [or IndexError] of the [except] clause having no effect. *)
Theorem on_received_message_listener_raises
        (event : string) (listener : callable) (data : Json.value) (socket : sock)
        (e : exn) (w w' : World) :
  Router.listeners (router w) !! event = Some listener ->
  call_listener listener data socket w = (Raised e, w') ->
  (KeyError ∈ mro e ->
     on_received_message event data socket w
     = (Ok tt, logged (no_listener_warning event) w'))
  /\ (KeyError ∉ mro e ->
     on_received_message event data socket w = (Raised e, w'))
  /\ (e = IndexError ->
     on_received_message event data socket w = (Raised IndexError, w')).
Proof.
  intros Hl Hc. rewrite (on_received_message_registered _ _ _ _ _ Hl), Hc.
  unfold isinstance. repeat split.
  - intros Hin. now rewrite bool_decide_eq_true_2.
  - intros Hout. now rewrite bool_decide_eq_false_2.
  - intros ->. reflexivity.
Qed.

(** C8: [on] with an argument that is neither a [str] nor callable
    raises [TypeError] at once and leaves the router as it was; with a
    [str] it gives back the decorator that registers the function it is
    applied to under that name; with a callable it registers the callable
    under its [__name__]. *)
Theorem on_registers_or_raises (w : World) :
  on PyOther w = (Raised TypeError, w)
  /\ (forall (name : string),
        on (PyStr name) w = (Ok (Decorator name), w)
        /\ forall (func : callable) (w0 : World),
             decorator name func w0 = (Ok func, with_listener name func w0))
  /\ (forall (f : callable) (name : string),
        dunder_name f = Some name ->
        on (PyCallable f) w = (Ok (Function f), with_listener name f w)).
Proof.
  repeat split.
  intros f name Hn. unfold on. now rewrite Hn.
Qed.

End Listeners.

(** ** The split of a frame *)
Section Split.

#[local] Arguments String.append : simpl nomatch.

Lemma append_assoc (a b c : string) : (a +:+ b) +:+ c = a +:+ (b +:+ c).
Proof. induction a as [|x a IH]; simpl; [reflexivity|now rewrite IH]. Qed.

Lemma length_append (a b : string) :
  String.length (a +:+ b) = (String.length a + String.length b)%nat.
Proof. induction a as [|x a IH]; simpl; [reflexivity|now rewrite IH]. Qed.

Lemma substring_prefix (p r : string) :
  String.substring 0 (String.length p) (p +:+ r) = p.
Proof.
  induction p as [|x p IH]; simpl.
  - destruct r; reflexivity.
  - now rewrite IH.
Qed.

Lemma consumed_append (p r : string) : Re.consumed (p +:+ r) r = p.
Proof.
  unfold Re.consumed. rewrite length_append.
  replace (String.length p + String.length r - String.length r)%nat
    with (String.length p) by lia.
  apply substring_prefix.
Qed.

(** The rest of the input after the longest [.+], and the text of it. *)
Lemma plus_rests_dot_head (t : string) :
  match Re.plus_rests Re.Dot t with
  | [] => first_line t = ""
  | r :: _ => first_line t <> "" /\ t = first_line t +:+ r
  end.
Proof.
  induction t as [|c t IH]; cbn [Re.plus_rests first_line]; [reflexivity|].
  unfold is_dot. destruct (Re.accepts Re.Dot c); [|reflexivity].
  destruct (Re.plus_rests Re.Dot t) as [|r l]; cbn [app].
  - rewrite IH. split; [discriminate|reflexivity].
  - destruct IH as [_ IH]. split; [discriminate|]. simpl. now rewrite <- IH.
Qed.

Lemma run_second_group (s : string) :
  match Re.run second_group s with
  | [] => payload_at s = None
  | (_, g) :: _ => exists g2, payload_at s = Some g2 /\ g = [g2]
  end.
Proof.
  destruct s as [|b t]; [reflexivity|].
  unfold second_group, payload_at, is_bracket.
  cbn [Re.run]. destruct (Re.accepts _ b); [|reflexivity].
  cbn [flat_map List.map]. rewrite app_nil_r, !List.map_map.
  pose proof (plus_rests_dot_head t) as Hh.
  destruct (Re.plus_rests Re.Dot t) as [|r l]; cbn [List.map].
  - now rewrite Hh.
  - destruct Hh as [Hne Ht]. destruct (first_line t) as [|x fl] eqn:Hfl; [congruence|].
    eexists. split; [reflexivity|]. simpl app. f_equal.
    rewrite Ht at 1.
    change (String b (String x fl +:+ r)) with (String b (String x fl) +:+ r).
    now rewrite consumed_append.
Qed.

Lemma first_match_app (l1 l2 : list string) (k : string -> string) :
  first_match (l1 ++ l2) k =
    match first_match l1 k with
    | Some r => Some r
    | None => first_match l2 k
    end.
Proof.
  unfold first_match. rewrite List.map_app, flat_map_app.
  destruct (flat_map _ (List.map _ l1)) as [|[? ?] ?]; reflexivity.
Qed.

Lemma first_match_one (t : string) (k : string -> string) :
  first_match [t] k =
    match payload_at t with
    | Some g2 => Some [k t; g2]
    | None => None
    end.
Proof.
  unfold first_match. cbn [List.map flat_map]. rewrite app_nil_r.
  pose proof (run_second_group t) as Hr.
  destruct (Re.run second_group t) as [|[s2 g] l].
  - now rewrite Hr.
  - destruct Hr as (g2 & -> & ->). reflexivity.
Qed.

Lemma first_match_greedy (s pre : string) :
  first_match (Re.plus_rests Re.Dot s) (Re.consumed (pre +:+ s)) =
    match greedy_split s with
    | Some (g1, g2) => Some [pre +:+ g1; g2]
    | None => None
    end.
Proof.
  revert pre. induction s as [|c t IH]; intros pre; [reflexivity|].
  cbn [Re.plus_rests greedy_split]. unfold is_dot.
  destruct (Re.accepts Re.Dot c); [|reflexivity].
  rewrite first_match_app, first_match_one.
  replace (pre +:+ String c t) with ((pre +:+ String c "") +:+ t)
    by now rewrite append_assoc.
  rewrite IH, consumed_append.
  destruct (greedy_split t) as [[g1 g2]|].
  - now rewrite append_assoc.
  - destruct (payload_at t); reflexivity.
Qed.

(** What [re.match] finds on a frame. *)
Lemma rmatch_message_pattern (s : string) :
  Re.rmatch message_pattern s =
    match greedy_split s with
    | Some (g1, g2) => Some [g1; g2]
    | None => None
    end.
Proof.
  pose proof (first_match_greedy s "") as Hf.
  unfold first_match in Hf. unfold Re.rmatch, message_pattern.
  cbn [Re.run]. fold second_group.
  rewrite List.map_map.
  simpl append in Hf.
  erewrite List.map_ext; [exact Hf|].
  intros t. reflexivity.
Qed.

(** Without a bracket there is no match. *)
Lemma greedy_split_no_bracket (s : string) :
  contains_bracket s = false -> greedy_split s = None.
Proof.
  induction s as [|c t IH]; [reflexivity|].
  cbn [contains_bracket greedy_split]. intros Hb.
  apply orb_false_iff in Hb as [_ Ht].
  rewrite (IH Ht). destruct (is_dot c); [|reflexivity].
  destruct t as [|b t']; [reflexivity|].
  cbn [contains_bracket] in Ht. apply orb_false_iff in Ht as [Hb _].
  unfold payload_at. now rewrite Hb.
Qed.

(** A lone bracket at the start of the frame is no match either: the
    first group needs a character. *)
Lemma greedy_split_bracket_first (b : ascii) (t : string) :
  contains_bracket t = false -> greedy_split (String b t) = None.
Proof.
  intros Ht. cbn [greedy_split]. rewrite (greedy_split_no_bracket _ Ht).
  destruct (is_dot b); [|reflexivity].
  destruct t as [|c t']; [reflexivity|].
  cbn [contains_bracket] in Ht. apply orb_false_iff in Ht as [Hc _].
  unfold payload_at. now rewrite Hc.
Qed.

(** The first group reaches at least as far as any bracket that has a
    character after it on the line. *)
Lemma greedy_split_reaches (u : string) (b c : ascii) (v : string) :
  u <> "" -> single_line u = true -> is_bracket b = true -> is_dot c = true ->
  exists g1 g2,
    greedy_split (u +:+ String b (String c v)) = Some (g1, g2)
    /\ (String.length u <= String.length g1)%nat.
Proof.
  intros Hu Hline Hb Hc. induction u as [|x u IH]; [congruence|].
  cbn [single_line] in Hline. apply andb_true_iff in Hline as [Hx Hline].
  simpl append. cbn [greedy_split]. rewrite Hx.
  destruct u as [|y u'].
  - simpl append.
    destruct (greedy_split (String b (String c v))) as [[g1 g2]|].
    + exists (String x g1), g2. split; [reflexivity|simpl; lia].
    + unfold payload_at. rewrite Hb. cbn [first_line]. rewrite Hc.
      eexists _, _. split; [reflexivity|simpl; lia].
  - destruct (IH ltac:(discriminate) Hline) as (g1 & g2 & -> & Hlen).
    exists (String x g1), g2. split; [reflexivity|simpl in *; lia].
Qed.

(** So when the payload text has a bracket after its first character
    that is not its last, the first group is longer than the event
    name the frame was built from. *)
Lemma greedy_split_overshoots (event : string) (b0 : ascii) (m : string)
      (b c : ascii) (v : string) :
  single_line event = true -> single_line (String b0 m) = true ->
  is_bracket b = true -> is_dot c = true ->
  exists g1 g2,
    greedy_split (event +:+ (String b0 m +:+ String b (String c v))) = Some (g1, g2)
    /\ (String.length event < String.length g1)%nat.
Proof.
  intros He Hm Hb Hc.
  destruct (greedy_split_reaches (event +:+ String b0 m) b c v) as (g1 & g2 & Hg & Hlen);
    try assumption.
  - destruct event; discriminate.
  - clear -He Hm. induction event as [|x e IH]; [exact Hm|].
    cbn [single_line] in He. apply andb_true_iff in He as [Hx He].
    simpl append. cbn [single_line]. now rewrite Hx, IH.
  - exists g1, g2. rewrite append_assoc in Hg. split; [exact Hg|].
    rewrite length_append in Hlen. simpl in Hlen. lia.
Qed.

End Split.

(** ** The wire codec: [emit] and the parsing in [on_message] *)
Section Codec.
Context `{Runtime}.

Lemma parse_spec (message : string) :
  parse message =
    match greedy_split message with
    | None => Raised AttributeError
    | Some (event, encoded_data) =>
        match json_loads encoded_data with
        | Some data => Ok (event, data)
        | None => Raised JSONDecodeError
        end
    end.
Proof.
  unfold parse. rewrite rmatch_message_pattern.
  destruct (greedy_split message) as [[g1 g2]|]; reflexivity.
Qed.

(** A frame that the pattern does not match: the [AttributeError] of
    [match.group] leaves [on_message], past the [except] clause and past
    the increment of the counter. *)
Lemma on_message_unmatched (self : sock) (message : string) (w : World) :
  greedy_split message = None ->
  on_message self message w
  = (Raised AttributeError, logged (received_record self message w) w).
Proof.
  intros Hs. unfold on_message, bind, get, try_except, lift.
  rewrite parse_spec, Hs. reflexivity.
Qed.

Lemma on_message_no_bracket (self : sock) (message : string) (w : World) :
  contains_bracket message = false ->
  on_message self message w
  = (Raised AttributeError, logged (received_record self message w) w).
Proof. intros Hb. apply on_message_unmatched, greedy_split_no_bracket, Hb. Qed.


(** A frame built by [emit] from a payload with a second bracket in its
    text does not come back: the event name read is longer than the one
    sent. *)
Lemma parse_nested_payload (event : string) (p : Json.value)
      (b0 : ascii) (m : string) (b c : ascii) (v : string) :
  single_line event = true ->
  json_dumps p = String b0 m +:+ String b (String c v) ->
  single_line (String b0 m) = true -> is_bracket b = true -> is_dot c = true ->
  forall data, parse (event +:+ json_dumps p) <> Ok (event, data).
Proof.
  intros He Hd Hm Hb Hc data. rewrite parse_spec, Hd.
  destruct (greedy_split_overshoots event b0 m b c v He Hm Hb Hc)
    as (g1 & g2 & -> & Hlen).
  destruct (json_loads g2); [|discriminate].
  intros [= Hg _]. subst g1. lia.
Qed.

End Codec.

(** ** The module at work in the example application *)
Section Runs.

(** C1 fails on the code, by the greedy first group of the pattern:
    [emit] sends the event [memes] with the payload
    [{'foo': {'bar': 1}}] as one frame, and parsing that frame splits it
    at the last bracket, [memes{'foo': ] and [{'bar': 1}}], then rejects
    the second part as JSON; the pair sent does not come back.  (A
    payload with one bracket only, [{'foo': 'bar'}], does.) *)
Theorem nested_payload_does_not_round_trip :
  let p := Json.Obj [("foo", Json.Obj [("bar", Json.Int 1)])] in
  let frame := py "memes{'foo': {'bar': 1}}" in
  @emit App.runtime 0%nat "memes" p new_world
    = (Ok tt, mkWorld (router new_world) ∅ [] [(0%nat, frame)])
  /\ Re.rmatch message_pattern frame
     = Some [py "memes{'foo': "; py "{'bar': 1}}"]
  /\ Json.decode (py "{'bar': 1}}") = Json.Invalid
  /\ @parse App.runtime frame = Raised JSONDecodeError
  /\ @parse App.runtime frame <> Ok ("memes", p)
  /\ @parse App.runtime (py "memes{'foo': 'bar'}")
     = Ok ("memes", Json.Obj [("foo", Json.Str "bar")]).
Proof. repeat split. discriminate. Qed.

(** C2 fails on the code: the frame is split at the last bracket that
    has a character after it, not at the first.  For the frame
    [#!@c['test', {'is': ['a', 4]}]] the event name read is
    [#!@c['test', {'is': ] and the payload text [['a', 4]}]], which is
    not JSON, so the message is dropped, although the text from the
    first bracket on is the JSON array of the claim and a listener is
    registered for [#!@c]. *)
Theorem nested_frame_split_at_last_bracket :
  let frame := py "#!@c['test', {'is': ['a', 4]}]" in
  let w := with_listener "#!@c" App.echo new_world in
  Re.rmatch message_pattern frame
    = Some [py "#!@c['test', {'is': "; py "['a', 4]}]"]
  /\ Json.decode (py "['a', 4]}]") = Json.Invalid
  /\ Json.decode (py "['test', {'is': ['a', 4]}]")
     = Json.Found (Json.Arr [Json.Str "test";
                             Json.Obj [("is", Json.Arr [Json.Str "a"; Json.Int 4])]]) ""
  /\ @parse App.runtime frame = Raised JSONDecodeError
  /\ @on_message App.runtime 0%nat frame w
     = (Ok tt, counted 0%nat (logged (dropped_record 0%nat frame w)
                                     (logged (received_record 0%nat frame w) w))).
Proof. repeat split. Qed.

(** C3 fails on the code: a frame that the pattern does not match is
    not dropped.  [re.match] gives [None], [match.group] raises
    [AttributeError], which [except JSONDecodeError] does not catch: the
    exception leaves [on_message] and the message counter is not moved.
    So it is for a frame without a bracket, for the empty frame, and for
    a frame whose only bracket is its first character; only a frame that
    matches and has a malformed JSON body is dropped and logged. *)
Theorem unmatched_frame_raises_attribute_error :
  Forall (fun frame =>
            @on_message App.runtime 0%nat frame new_world
            = (Raised AttributeError,
               logged (received_record 0%nat frame new_world) new_world))
         [py "asdf'hohoho'"; ""; py "{'yer': 4}"; "[dsa"]
  /\ @on_message App.runtime 0%nat "x[dsa" new_world
     = (Ok tt, counted 0%nat (logged (dropped_record 0%nat "x[dsa" new_world)
                               (logged (received_record 0%nat "x[dsa" new_world) new_world))).
Proof.
  split; [|reflexivity].
  repeat constructor.
Qed.

(** Against C4 as the spec words it: closing a connection that was never
    registered raises [ValueError]. *)
Lemma on_close_unregistered_faults :
  (0%nat ∉ Router.sockets (router new_world))
  /\ @on_close App.runtime 0%nat new_world = (Raised ValueError, new_world)
  /\ ~ (exists w', @on_close App.runtime 0%nat new_world = (Ok tt, w')).
Proof.
  repeat split.
  - apply not_elem_of_nil.
  - intros [w' Hw]. discriminate Hw.
Qed.

(** *** Instances *)

Lemma on_close_absent_raises_witness :
  (0%nat ∉ Router.sockets (router new_world))
  /\ @on_close App.runtime 0%nat new_world = (Raised ValueError, new_world).
Proof.
  split; [apply not_elem_of_nil|].
  apply (on_close_absent_raises (H := App.runtime) 0%nat new_world).
  apply not_elem_of_nil.
Defined.

Lemma on_received_message_unregistered_witness :
  Router.listeners (router new_world) !! "nope" = None
  /\ @on_received_message App.runtime "nope" (Json.Arr []) 0%nat new_world
     = (Ok tt, logged (no_listener_warning "nope") new_world).
Proof.
  split; [reflexivity|].
  apply (on_received_message_unregistered (H := App.runtime)
           "nope" (Json.Arr []) 0%nat new_world).
  reflexivity.
Defined.

Lemma on_received_message_listener_raises_witness :
  let w := with_listener "lookup" App.lookup (with_listener "index" App.index new_world) in
  @on_received_message App.runtime "lookup" (Json.Arr []) 0%nat w
    = (Ok tt, logged (no_listener_warning "lookup") w)
  /\ @on_received_message App.runtime "index" (Json.Arr []) 0%nat w
     = (Raised IndexError, w).
Proof.
  intros w. split.
  - apply (on_received_message_listener_raises (H := App.runtime)
             "lookup" App.lookup (Json.Arr []) 0%nat KeyError w w);
      [reflexivity|reflexivity|].
    apply (bool_decide_eq_true_1 (KeyError ∈ mro KeyError)). reflexivity.
  - destruct (on_received_message_listener_raises (H := App.runtime)
                "index" App.index (Json.Arr []) 0%nat IndexError w w)
      as (_ & Hother & _); [reflexivity|reflexivity|].
    apply Hother.
    apply (bool_decide_eq_false_1 (KeyError ∈ mro IndexError)). reflexivity.
Defined.

Lemma on_registers_or_raises_witness :
  @on App.runtime PyOther new_world = (Raised TypeError, new_world)
  /\ @on App.runtime (PyCallable App.echo) new_world
     = (Ok (Function App.echo), with_listener "echo" App.echo new_world).
Proof.
  split.
  - apply (on_registers_or_raises (H := App.runtime) new_world).
  - apply (on_registers_or_raises (H := App.runtime) new_world). reflexivity.
Defined.

Lemma get_socket_by_id_is_positional_witness :
  let w := @after_first_closed App.runtime in
  get_socket_by_id 2 w = (Ok None, w)
  /\ get_socket_by_id (-1) w = (Ok (Some 22%nat), w)
  /\ get_socket_by_id (-3) w = (Ok None, w)
  /\ get_socket_by_id 0 w = (Ok (Some 21%nat), w).
Proof.
  intros w. split; [|split; [|split]].
  - destruct (get_socket_by_id_is_positional (H := App.runtime) w 2) as (Hbeyond & _).
    apply Hbeyond. vm_compute. discriminate.
  - destruct (get_socket_by_id_is_positional (H := App.runtime) w (-1)) as (_ & Hneg & _).
    apply Hneg. reflexivity.
  - destruct (get_socket_by_id_is_positional (H := App.runtime) w (-3)) as (_ & Hneg & _).
    apply Hneg. reflexivity.
  - destruct (get_socket_by_id_is_positional (H := App.runtime) w 0) as (_ & _ & Hpos & _).
    apply Hpos. vm_compute. discriminate.
Defined.

End Runs.

(** ** More on the split of a frame *)
Section SplitMore.

#[local] Arguments String.append : simpl nomatch.

Lemma bracket_is_dot (b : ascii) : is_bracket b = true -> is_dot b = true.
Proof.
  unfold is_bracket, is_dot. cbn [Re.accepts existsb]. rewrite orb_false_r.
  intros Hb. apply orb_true_iff in Hb as [Hb|Hb];
    apply Ascii.eqb_eq in Hb; subst b; reflexivity.
Qed.

Lemma first_line_single (s : string) : single_line (first_line s) = true.
Proof.
  induction s as [|c t IH]; [reflexivity|]. cbn [first_line].
  destruct (is_dot c) eqn:Hc; [|reflexivity].
  cbn [single_line]. now rewrite Hc, IH.
Qed.

Lemma first_line_of_single (s : string) : single_line s = true -> first_line s = s.
Proof.
  induction s as [|c t IH]; [reflexivity|]. cbn [single_line first_line].
  intros Hs. apply andb_true_iff in Hs as [Hc Ht]. now rewrite Hc, IH.
Qed.

Lemma first_line_idem (s : string) : first_line (first_line s) = first_line s.
Proof. apply first_line_of_single, first_line_single. Qed.

Lemma single_line_append (a b : string) :
  single_line (a +:+ b) = single_line a && single_line b.
Proof.
  induction a as [|c a IH]; [reflexivity|]. simpl append. cbn [single_line].
  now rewrite IH, andb_assoc.
Qed.

Lemma payload_at_first_line (s : string) : payload_at (first_line s) = payload_at s.
Proof.
  destruct s as [|b t]; [reflexivity|]. cbn [first_line].
  destruct (is_bracket b) eqn:Hb.
  - rewrite (bracket_is_dot _ Hb). unfold payload_at. now rewrite Hb, first_line_idem.
  - unfold payload_at at 2. rewrite Hb.
    destruct (is_dot b); [|reflexivity]. unfold payload_at. now rewrite Hb.
Qed.

Lemma greedy_split_first_line (s : string) :
  greedy_split (first_line s) = greedy_split s.
Proof.
  induction s as [|c t IH]; [reflexivity|]. cbn [first_line greedy_split].
  destruct (is_dot c) eqn:Hc; [|reflexivity].
  cbn [greedy_split]. now rewrite Hc, IH, payload_at_first_line.
Qed.

Lemma payload_at_sound (s g2 : string) :
  payload_at s = Some g2 ->
  first_line s = g2
  /\ exists b rest, g2 = String b rest /\ is_bracket b = true /\ rest <> "".
Proof.
  destruct s as [|b t]; [discriminate|]. unfold payload_at.
  destruct (is_bracket b) eqn:Hb; [|discriminate].
  destruct (first_line t) as [|x l] eqn:Hl; [discriminate|].
  intros [= <-]. cbn [first_line]. rewrite (bracket_is_dot _ Hb), Hl.
  split; [reflexivity|]. exists b, (String x l). repeat split; [assumption|discriminate].
Qed.

(** The two groups make up the first line of the frame; the first is
    not empty and the second is a bracket and at least one character. *)
Lemma greedy_split_sound (s g1 g2 : string) :
  greedy_split s = Some (g1, g2) ->
  first_line s = g1 +:+ g2 /\ g1 <> ""
  /\ exists b rest, g2 = String b rest /\ is_bracket b = true /\ rest <> "".
Proof.
  revert g1. induction s as [|c t IH]; intros g1; [discriminate|].
  cbn [greedy_split first_line]. destruct (is_dot c); [|discriminate].
  destruct (greedy_split t) as [[h1 h2]|].
  - intros [= <- <-]. destruct (IH h1 eq_refl) as (Hl & _ & Hg).
    simpl append. rewrite Hl. repeat split; [discriminate|exact Hg].
  - destruct (payload_at t) as [h2|] eqn:Hp; [|discriminate].
    intros [= <- <-]. destruct (payload_at_sound _ _ Hp) as (Hl & Hg).
    simpl append. rewrite Hl. repeat split; [discriminate|exact Hg].
Qed.

(** No bracket after the first character of the second group has a
    character after it: the second group starts at the last bracket that
    could start it. *)
Lemma greedy_split_maximal (s g1 g2 : string) :
  greedy_split s = Some (g1, g2) ->
  forall u b c v,
    g2 = u +:+ String b (String c v) -> u <> "" -> is_bracket b = false.
Proof.
  revert g1. induction s as [|x t IH]; intros g1; [discriminate|].
  cbn [greedy_split]. destruct (is_dot x); [|discriminate].
  destruct (greedy_split t) as [[h1 h2]|] eqn:Hg.
  - intros [= <- <-]. exact (IH h1 eq_refl).
  - destruct (payload_at t) as [h2|] eqn:Hp; [|discriminate].
    intros [= <- <-] u b c v Hu Hne.
    destruct (is_bracket b) eqn:Hb; [exfalso|reflexivity].
    destruct (payload_at_sound _ _ Hp) as (Hl & _).
    pose proof (first_line_single t) as Hsingle.
    rewrite Hl, Hu, single_line_append in Hsingle.
    apply andb_true_iff in Hsingle as [Hsu Hsv].
    cbn [single_line] in Hsv. apply andb_true_iff in Hsv as [_ Hsv].
    apply andb_true_iff in Hsv as [Hc _].
    destruct (greedy_split_reaches u b c v Hne Hsu Hb Hc) as (k1 & k2 & Hk & _).
    rewrite <- Hu, <- Hl, greedy_split_first_line, Hg in Hk. discriminate.
Qed.

(** When the bracket of the payload is the only one of the frame, the
    split is at it. *)
Lemma greedy_split_flat (event : string) (b : ascii) (rest : string) :
  event <> "" -> single_line event = true -> contains_bracket event = false ->
  is_bracket b = true ->
  rest <> "" -> single_line rest = true -> contains_bracket rest = false ->
  greedy_split (event +:+ String b rest) = Some (event, String b rest).
Proof.
  intros He Hse Hbe Hb Hr Hsr Hbr.
  assert (Hp : payload_at (String b rest) = Some (String b rest)).
  { unfold payload_at. rewrite Hb, (first_line_of_single _ Hsr).
    destruct rest; [congruence|reflexivity]. }
  induction event as [|x e IH]; [congruence|].
  cbn [single_line contains_bracket] in Hse, Hbe.
  apply andb_true_iff in Hse as [Hx Hse]. apply orb_false_iff in Hbe as [_ Hbe].
  simpl append. cbn [greedy_split]. rewrite Hx.
  destruct e as [|y e'].
  - simpl append. now rewrite (greedy_split_bracket_first b rest Hbr), Hp.
  - now rewrite (IH ltac:(discriminate) Hse Hbe).
Qed.

End SplitMore.

(** ** More on parsing and on [on_message] *)
Section CodecMore.
Context `{Runtime}.

#[local] Arguments String.append : simpl nomatch.

Lemma append_inv_head (a x y : string) : a +:+ x = a +:+ y -> x = y.
Proof.
  induction a as [|c a IH]; simpl; [trivial|]. intros [= Ha]. exact (IH Ha).
Qed.

(** X1: Only the first line of a frame is parsed: what follows the first
    newline is not looked at. *)
Theorem parse_reads_first_line_only (message : string) :
  parse (first_line message) = parse message.
Proof. now rewrite !parse_spec, greedy_split_first_line. Qed.

(** X2: What a successful parse returns: the event name and the payload text
    are the two parts of the first line of the frame, the name is not
    empty, and the text is a bracket followed by at least one character
    which [json.loads] decodes to the payload. *)
Theorem parse_sound (message event : string) (data : Json.value) :
  parse message = Ok (event, data) ->
  event <> ""
  /\ exists b rest,
       first_line message = event +:+ String b rest
       /\ is_bracket b = true /\ rest <> ""
       /\ json_loads (String b rest) = Some data.
Proof.
  rewrite parse_spec.
  destruct (greedy_split message) as [[g1 g2]|] eqn:Hg; [|discriminate].
  destruct (json_loads g2) as [d|] eqn:Hj; [|discriminate].
  intros [= <- <-].
  destruct (greedy_split_sound _ _ _ Hg) as (Hl & Hne & b & rest & -> & Hb & Hr).
  split; [exact Hne|]. exists b, rest. auto.
Qed.

(** X3: The payload text of a successful parse starts at the last bracket of
    the line that has a character after it: past the first character of
    the text, no bracket is followed by anything. *)
Theorem parse_splits_at_last_bracket (message event : string) (data : Json.value) :
  parse message = Ok (event, data) ->
  forall u b c v,
    first_line message = event +:+ (u +:+ String b (String c v)) ->
    u <> "" -> is_bracket b = false.
Proof.
  rewrite parse_spec.
  destruct (greedy_split message) as [[g1 g2]|] eqn:Hg; [|discriminate].
  destruct (json_loads g2) as [d|]; [|discriminate].
  intros [= <- <-] u b c v Hl Hu.
  destruct (greedy_split_sound _ _ _ Hg) as (Hl' & _).
  rewrite Hl' in Hl. apply append_inv_head in Hl.
  exact (greedy_split_maximal _ _ _ Hg u b c v Hl Hu).
Qed.

(** X4: A frame of one line with a single bracket is parsed as written: the
    event name is the text before the bracket and the payload is what
    [json.loads] makes of the rest. *)
Theorem parse_flat_frame (event : string) (b : ascii) (rest : string) (data : Json.value) :
  event <> "" -> single_line event = true -> contains_bracket event = false ->
  is_bracket b = true ->
  rest <> "" -> single_line rest = true -> contains_bracket rest = false ->
  json_loads (String b rest) = Some data ->
  parse (event +:+ String b rest) = Ok (event, data).
Proof.
  intros He Hse Hbe Hb Hr Hsr Hbr Hj.
  now rewrite parse_spec, (greedy_split_flat event b rest), Hj.
Qed.

(** X5: Round trip: when the text [json.dumps] gives for a payload is one
    line with a single bracket, its first character, and [json.loads]
    reads that text back, the frame [emit] sends is parsed to the event
    and the payload that were sent. *)
Theorem emit_then_parse_flat (self : sock) (event : string) (p : Json.value)
        (b : ascii) (rest : string) (w : World) :
  event <> "" -> single_line event = true -> contains_bracket event = false ->
  json_dumps p = String b rest -> is_bracket b = true ->
  rest <> "" -> single_line rest = true -> contains_bracket rest = false ->
  json_loads (json_dumps p) = Some p ->
  exists frame,
    emit self event p w
    = (Ok tt, mkWorld (router w) (handlers w) (log w) (sent w ++ [(self, frame)]))
    /\ parse frame = Ok (event, p).
Proof.
  intros He Hse Hbe Hd Hb Hr Hsr Hbr Hj.
  exists (event +:+ json_dumps p). split; [reflexivity|].
  rewrite parse_spec, Hd, (greedy_split_flat event b rest) by assumption.
  now rewrite <- Hd, Hj.
Qed.

(** X6: The frames on which parsing raises [AttributeError] are exactly those
    whose first line has no bracket with a character before it and one
    after it. *)
Theorem parse_attribute_error_iff (message : string) :
  parse message = Raised AttributeError
  <-> ~ (exists u b c v,
           u <> "" /\ is_bracket b = true
           /\ first_line message = u +:+ String b (String c v)).
Proof.
  rewrite parse_spec. split.
  - intros Hp (u & b & c & v & Hu & Hb & Hl).
    pose proof (first_line_single message) as Hs.
    rewrite Hl, single_line_append in Hs. apply andb_true_iff in Hs as [Hsu Hs].
    cbn [single_line] in Hs. apply andb_true_iff in Hs as [_ Hs].
    apply andb_true_iff in Hs as [Hc _].
    destruct (greedy_split_reaches u b c v Hu Hsu Hb Hc) as (g1 & g2 & Hg & _).
    rewrite <- Hl, greedy_split_first_line in Hg. rewrite Hg in Hp.
    destruct (json_loads g2); discriminate.
  - intros Hno. destruct (greedy_split message) as [[g1 g2]|] eqn:Hg; [|reflexivity].
    exfalso. apply Hno.
    destruct (greedy_split_sound _ _ _ Hg) as (Hl & Hne & b & rest & -> & Hb & Hr).
    destruct rest as [|c v]; [congruence|]. exists g1, b, c, v. auto.
Qed.

(** [on_message] on a frame that parses: the dispatch runs with the log
    of the arrival made; when it returns, the trigger is logged and the
    counter moves on; a [JSONDecodeError] out of it is taken for a
    malformed frame; any other exception goes on, past the counter. *)
Lemma on_message_parsed (self : sock) (message event : string) (data : Json.value)
      (w : World) :
  parse message = Ok (event, data) ->
  on_message self message w =
    match on_received_message event data self (logged (received_record self message w) w) with
    | (Ok _, w1) => (Ok tt, counted self (logged (triggered_record self event w1) w1))
    | (Raised e, w1) =>
        if isinstance e JSONDecodeError
        then (Ok tt, counted self (logged (dropped_record self message w1) w1))
        else (Raised e, w1)
    end.
Proof.
  intros Hp. unfold on_message, bind, get, try_except, lift. rewrite Hp. cbn.
  match goal with |- context [on_received_message ?e ?d ?s ?w0] =>
    change w0 with (logged (received_record self message w) w);
    destruct (on_received_message e d s (logged (received_record self message w) w))
      as [[[]|e'] w1] end.
  - reflexivity.
  - destruct (isinstance e' JSONDecodeError); reflexivity.
Qed.

End CodecMore.

(** ** What [on_message] does with a frame that parses *)
Section Dispatch.
Context `{Runtime}.


Lemma on_message_json_error (self : sock) (message : string) (w : World) :
  parse message = Raised JSONDecodeError ->
  on_message self message w
  = (Ok tt, counted self (logged (dropped_record self message w)
                                 (logged (received_record self message w) w))).
Proof.
  intros Hp. unfold on_message, bind, get, try_except, lift. rewrite Hp. reflexivity.
Qed.

(** X7: A frame that parses to an event with a listener that returns: the
    listener is called with the payload and the socket, after the arrival
    is logged; then the trigger is logged and the counter of the socket
    moves on by one. *)
Theorem on_message_dispatches
        (self : sock) (message event : string) (data : Json.value)
        (listener : callable) (w w1 : World) :
  parse message = Ok (event, data) ->
  Router.listeners (router w) !! event = Some listener ->
  call_listener listener data self (logged (received_record self message w) w)
  = (Ok tt, w1) ->
  on_message self message w
  = (Ok tt, counted self (logged (triggered_record self event w1) w1)).
Proof.
  intros Hp Hl Hc. rewrite (on_message_parsed _ _ _ _ _ Hp).
  rewrite (on_received_message_registered event listener) by exact Hl.
  now rewrite Hc.
Qed.

(** X8: A frame that parses to an event without a listener is not an error:
    the missing listener is logged as a warning, the frame is still
    logged as having triggered its event, and the counter moves on. *)
Theorem on_message_unregistered_event
        (self : sock) (message event : string) (data : Json.value) (w : World) :
  parse message = Ok (event, data) ->
  Router.listeners (router w) !! event = None ->
  on_message self message w
  = (Ok tt,
     let w1 := logged (no_listener_warning event)
                      (logged (received_record self message w) w) in
     counted self (logged (triggered_record self event w1) w1)).
Proof.
  intros Hp Hl. rewrite (on_message_parsed _ _ _ _ _ Hp).
  unfold on_received_message, try_except, bind, get, lift, dict_getitem. cbn.
  now rewrite Hl.
Qed.

(** X9: An exception raised by the listener that is neither a [KeyError] nor
    a [JSONDecodeError] leaves [on_message]: nothing more is logged and
    the counter is not moved. *)
Theorem on_message_listener_exception_escapes
        (self : sock) (message event : string) (data : Json.value)
        (listener : callable) (e : exn) (w w1 : World) :
  parse message = Ok (event, data) ->
  Router.listeners (router w) !! event = Some listener ->
  call_listener listener data self (logged (received_record self message w) w)
  = (Raised e, w1) ->
  KeyError ∉ mro e -> JSONDecodeError ∉ mro e ->
  on_message self message w = (Raised e, w1).
Proof.
  intros Hp Hl Hc Hk Hj. rewrite (on_message_parsed _ _ _ _ _ Hp).
  rewrite (on_received_message_registered event listener) by exact Hl.
  rewrite Hc. unfold isinstance. now rewrite !bool_decide_eq_false_2.
Qed.


(** X11: A [KeyError] raised by the listener does not stop the handling of the
    frame: it is logged as a missing listener, then the frame is logged as
    having triggered its event and the counter moves on. *)
Theorem on_message_listener_key_error
        (self : sock) (message event : string) (data : Json.value)
        (listener : callable) (e : exn) (w w1 : World) :
  parse message = Ok (event, data) ->
  Router.listeners (router w) !! event = Some listener ->
  call_listener listener data self (logged (received_record self message w) w)
  = (Raised e, w1) ->
  KeyError ∈ mro e ->
  on_message self message w
  = (Ok tt,
     let w2 := logged (no_listener_warning event) w1 in
     counted self (logged (triggered_record self event w2) w2)).
Proof.
  intros Hp Hl Hc Hk. rewrite (on_message_parsed _ _ _ _ _ Hp).
  rewrite (on_received_message_registered event listener) by exact Hl.
  rewrite Hc. unfold isinstance. now rewrite bool_decide_eq_true_2.
Qed.


(** X13: A run of frames that all match the pattern and are not JSON: every
    one is dropped, [on_message] returns each time, the counter of the
    socket grows by the number of frames and two records are logged for
    each; the router and the frames sent are as before. *)
Theorem receive_all_dropped (self : sock) (frames : list string) (w : World) :
  Forall (fun frame => parse frame = Raised JSONDecodeError) frames ->
  exists w',
    receive_all self frames w = (Ok tt, w')
    /\ router w' = router w /\ sent w' = sent w
    /\ Handler.count (handler_of w' self)
       = Handler.count (handler_of w self) + Z.of_nat (length frames)
    /\ Handler.id (handler_of w' self) = Handler.id (handler_of w self)
    /\ length (log w') = (length (log w) + 2 * length frames)%nat.
Proof.
  intros Hall. revert w. induction Hall as [|frame frames Hp _ IH]; intros w.
  - exists w. cbn. repeat split; lia.
  - cbn [receive_all]. unfold bind at 1. rewrite (on_message_json_error _ _ _ Hp).
    match goal with |- context [receive_all self frames ?w0] =>
      destruct (IH w0) as (w' & -> & Hr & Hs & Hc & Hi & Hlog) end.
    exists w'. split; [reflexivity|].
    unfold counted, logged, handler_of in *. cbn in *.
    rewrite lookup_insert_eq in Hc, Hi. cbn in *.
    rewrite !length_app in Hlog. cbn in Hlog.
    repeat split; try assumption; lia.
Qed.

End Dispatch.

(** ** The life of a connection *)
Section Lifecycle.
Context `{Runtime}.

Lemma first_occurrence_unique (x : sock) (l1 l2 k1 k2 : list sock) :
  l1 ++ x :: l2 = k1 ++ x :: k2 -> x ∉ l1 -> x ∉ k1 -> k1 = l1 /\ k2 = l2.
Proof.
  revert k1. induction l1 as [|y l1 IH]; intros k1 Hk Hl1 Hk1.
  - destruct k1 as [|z k1]; cbn in Hk.
    + injection Hk as <-. auto.
    + injection Hk as -> _. exfalso. apply Hk1, list_elem_of_here.
  - apply not_elem_of_cons in Hl1 as [Hne Hl1]. destruct k1 as [|z k1]; cbn in Hk.
    + injection Hk as -> _. congruence.
    + injection Hk as <- Hk. apply not_elem_of_cons in Hk1 as [_ Hk1].
      destruct (IH k1 Hk Hl1 Hk1) as [-> ->]. auto.
Qed.

Lemma add_to_router_spec (self : sock) (w : World) :
  add_to_router self w
  = call_hook (Router.on_open (router w)) self (registered self w).
Proof.
  unfold add_to_router. unfold bind at 1. rewrite register_socket_spec.
  unfold bind, set_handler, logger, modify, get. cbn.
  f_equal.
Qed.

Lemma add_to_router_lambda (self : sock) (warning : string) (w : World) :
  Router.on_open (router w) = Lambda warning ->
  add_to_router self w
  = (Ok tt, logged (LogRecord WARNING warning []) (registered self w)).
Proof. intros Hh. rewrite add_to_router_spec, Hh. reflexivity. Qed.

Lemma add_all_spec (l : list sock) :
  forall w, lambda_open w -> NoDup l ->
    exists w',
      add_all l w = (Ok tt, w')
      /\ Router.sockets (router w') = Router.sockets (router w) ++ l
      /\ Router._next_sid (router w') = Router._next_sid (router w) + Z.of_nat (length l)
      /\ (forall k s, l !! k = Some s ->
            Handler.id (handler_of w' s) = Some (Router._next_sid (router w) + Z.of_nat k))
      /\ (forall s, s ∉ l -> handler_of w' s = handler_of w s).
Proof.
  induction l as [|s l IH]; intros w Hopen Hnd.
  - exists w. cbn. rewrite app_nil_r, Z.add_0_r.
    split; [reflexivity|]. split; [reflexivity|]. split; [reflexivity|].
    split; [|reflexivity].
    intros k s Hk. rewrite lookup_nil in Hk. discriminate.
  - destruct Hopen as [m Hm]. apply NoDup_cons in Hnd as [Hs Hnd].
    cbn [add_all]. unfold bind at 1. rewrite (add_to_router_lambda _ _ _ Hm).
    destruct (IH (logged (LogRecord WARNING m []) (registered s w))
                 ltac:(exists m; exact Hm) Hnd)
      as (w' & -> & Hsock & Hsid & Hid & Hother).
    exists w'. split; [reflexivity|]. cbn in Hsock, Hsid.
    split; [now rewrite Hsock, <- app_assoc|].
    split; [rewrite Hsid; cbn [length]; lia|].
    split.
    + intros [|k] s' Hk; cbn in Hk.
      * injection Hk as <-. rewrite (Hother _ Hs). unfold handler_of. cbn.
        rewrite lookup_insert_eq. cbn. now rewrite Z.add_0_r.
      * rewrite (Hid _ _ Hk). cbn. f_equal. lia.
    + intros s' Hs'. apply not_elem_of_cons in Hs' as [Hne Hs'].
      rewrite (Hother _ Hs'). unfold handler_of. cbn.
      now rewrite lookup_insert_ne by congruence.
Qed.

(** X14: Before any connection has closed, ids and positions agree: after the
    connections of a list without repetition have been added to a new
    router, in order, [get_socket_by_id k] is the k-th of them and its
    [id] attribute is [k]. *)
Theorem ids_are_positions_before_any_removal (l : list sock) :
  NoDup l ->
  exists w',
    add_all l new_world = (Ok tt, w')
    /\ forall (k : nat) (s : sock), l !! k = Some s ->
         get_socket_by_id (Z.of_nat k) w' = (Ok (Some s), w')
         /\ Handler.id (handler_of w' s) = Some (Z.of_nat k).
Proof.
  intros Hnd.
  destruct (add_all_spec l new_world ltac:(eexists; reflexivity) Hnd)
    as (w' & Hrun & Hsock & _ & Hid & _).
  exists w'. split; [exact Hrun|]. intros k s Hk. split.
  - rewrite get_socket_by_id_spec, list_getitem_nonneg by lia.
    rewrite Hsock, Nat2Z.id. cbn. now rewrite Hk.
  - rewrite (Hid _ _ Hk). reflexivity.
Qed.

(** X15: Closing a registered connection, with the close hook of [__init__]:
    the first occurrence of the connection leaves the table and the other
    entries keep their order; the hook's warning and [Disconnected] are
    logged; listeners, the id counter and the handler's attributes stay. *)
Theorem on_close_registered (self : sock) (l1 l2 : list sock) (warning : string)
        (w : World) :
  Router.sockets (router w) = l1 ++ self :: l2 -> self ∉ l1 ->
  Router.on_close (router w) = Lambda warning ->
  on_close self w
  = (Ok tt, logged (LogRecord INFO "Disconnected" [])
              (logged (LogRecord WARNING warning []) (with_sockets (l1 ++ l2) w))).
Proof.
  intros Hs Hl1 Hh.
  destruct (on_close_present self w) as (k1 & k2 & Hk & Hk1 & ->).
  { rewrite Hs. apply elem_of_app. right. apply list_elem_of_here. }
  rewrite Hs in Hk.
  destruct (first_occurrence_unique _ _ _ _ _ Hk Hl1 Hk1) as [-> ->].
  unfold with_sockets, logged. cbn. rewrite Hh. reflexivity.
Qed.

(** X16: Closing twice: when the connection is in the table once, the first
    [on_close] returns and the second raises [ValueError]. *)
Theorem on_close_twice_raises (self : sock) (w : World) :
  NoDup (Router.sockets (router w)) -> self ∈ Router.sockets (router w) ->
  lambda_close w ->
  exists w1,
    on_close self w = (Ok tt, w1)
    /\ on_close self w1 = (Raised ValueError, w1).
Proof.
  intros Hnd Hin [m Hm].
  destruct (on_close_present self w Hin) as (l1 & l2 & Hs & Hl1 & Hc).
  rewrite Hm in Hc. eexists. split; [exact Hc|].
  unfold on_close, bind, get, lift. cbn.
  rewrite list_remove_absent; [reflexivity|].
  rewrite Hs in Hnd. apply NoDup_app in Hnd as (_ & _ & Hnd).
  apply NoDup_cons in Hnd as [Hl2 _].
  intros Hboth. apply elem_of_app in Hboth as [?|?]; contradiction.
Qed.

(** X17: When the close hook is a function that raises, [on_close] raises the
    same exception: the connection has left the table by then and
    [Disconnected] is not logged. *)
Theorem on_close_hook_raises (self : sock) (l1 l2 : list sock) (f : callable)
        (e : exn) (w w2 : World) :
  Router.sockets (router w) = l1 ++ self :: l2 -> self ∉ l1 ->
  Router.on_close (router w) = Fn f ->
  call_hook_fn f self (with_sockets (l1 ++ l2) w) = (Raised e, w2) ->
  on_close self w = (Raised e, w2).
Proof.
  intros Hs Hl1 Hh Hc.
  destruct (list_remove_present self (Router.sockets (router w))) as (k1 & k2 & Hk & Hk1 & Hrm).
  { rewrite Hs. apply elem_of_app. right. apply list_elem_of_here. }
  rewrite Hs in Hk.
  destruct (first_occurrence_unique _ _ _ _ _ Hk Hl1 Hk1) as [-> ->].
  unfold on_close, bind at 1 2, get, lift. rewrite Hrm.
  unfold with_sockets in Hc. unfold bind, set_router, modify, get. cbn.
  rewrite Hh in *. cbn. now rewrite Hc.
Qed.

End Lifecycle.

(** ** The id counter and [open] *)
Section OpenClose.
Context `{Runtime}.

Lemma run_ops_counter (ops : list op) :
  forall w, lambda_close w ->
    Router._next_sid (router (snd (run_ops ops w)))
    = Router._next_sid (router w) + Z.of_nat (registrations ops)
    /\ (length (Router.sockets (router (snd (run_ops ops w))))
        <= length (Router.sockets (router w)) + registrations ops)%nat.
Proof.
  induction ops as [|[s|s] ops IH]; intros w Hw; cbn [run_ops registrations].
  - cbn. split; lia.
  - rewrite register_socket_spec.
    match goal with |- context [run_ops ops ?w'] =>
      destruct (IH w' Hw) as [Hsid Hlen]; destruct (run_ops ops w') as [ids w''] end.
    cbn in *. rewrite length_app in Hlen. cbn in Hlen. split; lia.
  - destruct (on_close_keeps_counter s w Hw) as [Hsid Hl].
    destruct (IH _ Hl) as [Hsid' Hlen]. rewrite Hsid', Hsid. split; [reflexivity|].
    enough (length (Router.sockets (router (snd (on_close s w))))
            <= length (Router.sockets (router w)))%nat by lia.
    destruct Hw as [m Hm].
    destruct (decide (s ∈ Router.sockets (router w))) as [Hin|Hout].
    + destruct (on_close_present _ _ Hin) as (l1 & l2 & Hs & _ & ->).
      rewrite Hm, Hs. cbn. rewrite !length_app. cbn. lia.
    + unfold on_close, bind, get, lift. rewrite (list_remove_absent _ _ Hout). cbn. lia.
Qed.

(** X18: After any run of registrations and removals on a new router, the id
    counter is the number of registrations made, the table holds no more
    sockets than that, and the id that would be issued next is not found
    by [get_socket_by_id]. *)
Theorem counter_bounds_the_table (ops : list op) :
  let w := snd (run_ops ops new_world) in
  Router._next_sid (router w) = Z.of_nat (registrations ops)
  /\ (length (Router.sockets (router w)) <= registrations ops)%nat
  /\ get_socket_by_id (Router._next_sid (router w)) w = (Ok None, w).
Proof.
  cbn zeta.
  destruct (run_ops_counter ops new_world ltac:(eexists; reflexivity)) as [Hsid Hlen].
  cbn in Hsid, Hlen. split; [exact Hsid|]. split; [exact Hlen|].
  rewrite get_socket_by_id_spec, list_getitem_nonneg by lia.
  do 2 f_equal. apply lookup_ge_None_2. lia.
Qed.

Lemma list_remove_last (x : sock) (l : list sock) :
  x ∉ l -> list_remove x (l ++ [x]) = Ok l.
Proof.
  induction l as [|y l IH]; intros Hx; cbn.
  - now rewrite decide_True.
  - apply not_elem_of_cons in Hx as [Hne Hx].
    rewrite decide_False by congruence. now rewrite (IH Hx).
Qed.

(** X19: [open] with the open hook of [__init__]: the router is printed, the
    connection is put last in the table and gets the next id, which is
    stored in its [id]; its [url_param] is set and its message counter is
    untouched; the listeners stay. *)
Theorem open_registers_connection (self : sock) (url_param : string) (p : Process) :
  lambda_open (world p) ->
  exists w',
    open self url_param p
    = (Ok tt, mkProcess w' (router_hash p) (stdout p ++ [__repr__ (router_hash p)]))
    /\ Router.sockets (router w') = Router.sockets (router (world p)) ++ [self]
    /\ Router._next_sid (router w') = Router._next_sid (router (world p)) + 1
    /\ Router.listeners (router w') = Router.listeners (router (world p))
    /\ handler_of w' self
       = Handler.Build (Some (Router._next_sid (router (world p)))) (Some url_param)
                       (Handler.count (handler_of (world p) self)).
Proof.
  intros [m Hm]. unfold open. unfold bind at 1 2. unfold logger at 1, modify.
  rewrite (add_to_router_lambda self m) by exact Hm.
  eexists. split; [reflexivity|]. cbn. unfold handler_of. cbn.
  rewrite !lookup_insert_eq. cbn. auto.
Qed.

(** X20: When the open hook is a function that raises, [open] raises the same
    exception after the connection has been registered and given its id:
    the connection is in the table although its [url_param] was never
    set. *)
Theorem open_hook_raises (self : sock) (url_param : string) (f : callable)
        (e : exn) (p : Process) (w2 : World) :
  Router.on_open (router (world p)) = Fn f ->
  call_hook_fn f self
    (registered self
       (logged (LogRecord INFO "new connection established with url_param: %s"
                          [AStr url_param]) (world p)))
  = (Raised e, w2) ->
  open self url_param p
  = (Raised e, mkProcess w2 (router_hash p) (stdout p ++ [__repr__ (router_hash p)])).
Proof.
  intros Hh Hc. unfold open. unfold bind at 1 2. unfold logger at 1, modify.
  rewrite add_to_router_spec. cbn [router logged]. unfold logged in Hc.
  cbn [router] in *. rewrite Hh. cbn [call_hook]. now rewrite Hc.
Qed.


End OpenClose.

(** ** Instances of the properties above *)
Section MoreRuns.

Lemma parse_sound_witness :
  "memes" <> ""
  /\ exists b rest,
       first_line (py "memes{'foo': 'bar'}") = "memes" +:+ String b rest
       /\ is_bracket b = true /\ rest <> ""
       /\ Json.loads (String b rest) = Some (Json.Obj [("foo", Json.Str "bar")]).
Proof.
  apply (parse_sound (H := App.runtime) (py "memes{'foo': 'bar'}") "memes"
                     (Json.Obj [("foo", Json.Str "bar")])).
  reflexivity.
Defined.

Lemma parse_splits_at_last_bracket_witness :
  @parse App.runtime (py "memes{'foo': 'bar'}")
  = Ok ("memes", Json.Obj [("foo", Json.Str "bar")])
  /\ is_bracket "f" = false.
Proof.
  split; [reflexivity|].
  apply (parse_splits_at_last_bracket (H := App.runtime) (py "memes{'foo': 'bar'}") "memes"
           (Json.Obj [("foo", Json.Str "bar")]) eq_refl
           (py "{'") "f" "o" (py "o': 'bar'}")); [reflexivity|discriminate].
Defined.

Lemma parse_flat_frame_witness :
  @parse App.runtime ("memes" +:+ String "{" (py "'foo': 'bar'}"))
  = Ok ("memes", Json.Obj [("foo", Json.Str "bar")]).
Proof.
  apply (parse_flat_frame (H := App.runtime) "memes" "{" (py "'foo': 'bar'}"));
    [discriminate|reflexivity|reflexivity|reflexivity|discriminate
    |reflexivity|reflexivity|reflexivity].
Defined.

Lemma emit_then_parse_flat_witness :
  exists frame,
    @emit App.runtime 5%nat "memes" (Json.Arr [Json.Int 1; Json.Str "a"]) new_world
    = (Ok tt, mkWorld (router new_world) (handlers new_world) (log new_world)
                      (sent new_world ++ [(5%nat, frame)]))
    /\ @parse App.runtime frame = Ok ("memes", Json.Arr [Json.Int 1; Json.Str "a"]).
Proof.
  apply (emit_then_parse_flat (H := App.runtime) 5%nat "memes"
           (Json.Arr [Json.Int 1; Json.Str "a"]) "[" (py "1, 'a']") new_world);
    [discriminate|reflexivity|reflexivity|reflexivity|reflexivity|discriminate
    |reflexivity|reflexivity|reflexivity].
Defined.

Lemma on_message_dispatches_witness :
  let frame := py "memes{'foo': 'bar'}" in
  let data := Json.Obj [("foo", Json.Str "bar")] in
  let w := with_listener "memes" App.memes new_world in
  let w1 := snd (App.call App.memes data 0%nat (logged (received_record 0%nat frame w) w)) in
  @on_message App.runtime 0%nat frame w
  = (Ok tt, counted 0%nat (logged (triggered_record 0%nat "memes" w1) w1)).
Proof.
  intros frame data w w1.
  apply (on_message_dispatches (H := App.runtime) 0%nat frame "memes" data App.memes w w1);
    reflexivity.
Defined.

Lemma on_message_unregistered_event_witness :
  let frame := py "memes{'foo': 'bar'}" in
  let w1 := logged (no_listener_warning "memes")
                   (logged (received_record 0%nat frame new_world) new_world) in
  @on_message App.runtime 0%nat frame new_world
  = (Ok tt, counted 0%nat (logged (triggered_record 0%nat "memes" w1) w1)).
Proof.
  intros frame w1.
  apply (on_message_unregistered_event (H := App.runtime) 0%nat frame "memes"
           (Json.Obj [("foo", Json.Str "bar")]) new_world); reflexivity.
Defined.

Lemma on_message_listener_exception_escapes_witness :
  let frame := py "memes{'foo': 'bar'}" in
  let w := with_listener "memes" App.index new_world in
  @on_message App.runtime 0%nat frame w
  = (Raised IndexError, logged (received_record 0%nat frame w) w).
Proof.
  intros frame w.
  apply (on_message_listener_exception_escapes (H := App.runtime) 0%nat frame "memes"
           (Json.Obj [("foo", Json.Str "bar")]) App.index IndexError w);
    [reflexivity|reflexivity|reflexivity| |].
  - apply (bool_decide_eq_false_1 (KeyError ∈ mro IndexError)). reflexivity.
  - apply (bool_decide_eq_false_1 (JSONDecodeError ∈ mro IndexError)). reflexivity.
Defined.


Lemma on_message_listener_key_error_witness :
  let frame := py "memes{'foo': 'bar'}" in
  let w := with_listener "memes" App.lookup new_world in
  let w2 := logged (no_listener_warning "memes") (logged (received_record 0%nat frame w) w) in
  @on_message App.runtime 0%nat frame w
  = (Ok tt, counted 0%nat (logged (triggered_record 0%nat "memes" w2) w2)).
Proof.
  intros frame w w2.
  apply (on_message_listener_key_error (H := App.runtime) 0%nat frame "memes"
           (Json.Obj [("foo", Json.Str "bar")]) App.lookup KeyError w
           (logged (received_record 0%nat frame w) w));
    [reflexivity|reflexivity|reflexivity|].
  apply (bool_decide_eq_true_1 (KeyError ∈ mro KeyError)). reflexivity.
Defined.


Lemma receive_all_dropped_witness :
  exists w',
    @receive_all App.runtime 3%nat ["x[dsa"; "y{z"] new_world = (Ok tt, w')
    /\ router w' = router new_world /\ sent w' = sent new_world
    /\ Handler.count (handler_of w' 3%nat)
       = Handler.count (handler_of new_world 3%nat) + Z.of_nat (length ["x[dsa"; "y{z"])
    /\ Handler.id (handler_of w' 3%nat) = Handler.id (handler_of new_world 3%nat)
    /\ length (log w') = (length (log new_world) + 2 * length ["x[dsa"; "y{z"])%nat.
Proof.
  apply (receive_all_dropped (H := App.runtime) 3%nat ["x[dsa"; "y{z"] new_world).
  repeat constructor.
Defined.

Lemma ids_are_positions_before_any_removal_witness :
  exists w',
    @add_all App.runtime [20; 21; 22]%nat new_world = (Ok tt, w')
    /\ forall (k : nat) (s : sock), [20; 21; 22]%nat !! k = Some s ->
         get_socket_by_id (Z.of_nat k) w' = (Ok (Some s), w')
         /\ Handler.id (handler_of w' s) = Some (Z.of_nat k).
Proof.
  apply (ids_are_positions_before_any_removal (H := App.runtime) [20; 21; 22]%nat).
  apply (bool_decide_unpack (NoDup [20; 21; 22]%nat)). reflexivity.
Defined.

Lemma on_close_registered_witness :
  let w := with_sockets [20; 21; 20]%nat new_world in
  @on_close App.runtime 20%nat w
  = (Ok tt, logged (LogRecord INFO "Disconnected" [])
              (logged (LogRecord WARNING "Socket close event undefined, not triggering it" [])
                      (with_sockets ([] ++ [21; 20]%nat) w))).
Proof.
  intros w.
  apply (on_close_registered (H := App.runtime) 20%nat [] [21; 20]%nat
           "Socket close event undefined, not triggering it" w);
    [reflexivity| |reflexivity].
  apply not_elem_of_nil.
Defined.

Lemma on_close_twice_raises_witness :
  exists w1,
    @on_close App.runtime 20%nat (with_sockets [20; 21]%nat new_world) = (Ok tt, w1)
    /\ @on_close App.runtime 20%nat w1 = (Raised ValueError, w1).
Proof.
  apply (on_close_twice_raises (H := App.runtime) 20%nat (with_sockets [20; 21]%nat new_world)).
  - apply (bool_decide_unpack (NoDup [20; 21]%nat)). reflexivity.
  - apply list_elem_of_here.
  - exists "Socket close event undefined, not triggering it". reflexivity.
Defined.

Lemma on_close_hook_raises_witness :
  let w := hooked_world 0%nat [20; 21]%nat in
  @on_close App.runtime 21%nat w = (Raised TypeError, with_sockets ([20%nat] ++ []) w).
Proof.
  intros w.
  apply (on_close_hook_raises (H := App.runtime) 21%nat [20%nat] [] 0%nat TypeError w);
    [reflexivity| |reflexivity|reflexivity].
  apply (bool_decide_eq_false_1 (21%nat ∈ [20%nat])). reflexivity.
Defined.

Lemma open_registers_connection_witness :
  let p := mkProcess new_world 7 [] in
  exists w',
    @open App.runtime 20%nat "room" p
    = (Ok tt, mkProcess w' 7 ([] ++ [__repr__ 7]))
    /\ Router.sockets (router w') = Router.sockets (router new_world) ++ [20%nat]
    /\ Router._next_sid (router w') = Router._next_sid (router new_world) + 1
    /\ Router.listeners (router w') = Router.listeners (router new_world)
    /\ handler_of w' 20%nat
       = Handler.Build (Some (Router._next_sid (router new_world))) (Some "room")
                       (Handler.count (handler_of new_world 20%nat)).
Proof.
  intros p.
  apply (open_registers_connection (H := App.runtime) 20%nat "room" p).
  exists "Socket open event undefined, not triggering it". reflexivity.
Defined.

Lemma open_hook_raises_witness :
  let p := mkProcess (hooked_world 0%nat []) 7 [] in
  @open App.runtime 20%nat "room" p
  = (Raised TypeError,
     mkProcess (registered 20%nat
                  (logged (LogRecord INFO "new connection established with url_param: %s"
                                     [AStr "room"]) (world p)))
               7 ([] ++ [__repr__ 7])).
Proof.
  intros p.
  apply (open_hook_raises (H := App.runtime) 20%nat "room" 0%nat TypeError p); reflexivity.
Defined.


End MoreRuns.
